(** * Service monitor: a shallow embedding of [app.js]

    The development follows the layout of the program: JavaScript values
    and completions, the credential vault ([encrypt] / [decrypt]), the
    checker ([checkService]), the history persister
    ([saveServiceHistory], [calculateUptime]), the notification
    dispatcher ([sendNotifications]) and the monitoring state with its
    cycle ([checkAllServices]) and administrative routes.

    Strings are byte strings holding the UTF-8 encoding of well-formed
    text; [":"] and ["/"] are single bytes that never occur inside a
    multi-byte sequence, so [includes], [split] and [join] act on them
    as they do on the JavaScript strings.

    What the program does not decide is an input of the embedding: the
    behaviour of the probed endpoints and of the notification providers,
    the readings of the wall clock, the calendar of the process's time
    zone, the entropy source and the block cipher. The file system is
    the one of the image built by the [Dockerfile]: the program lives in
    [/app], its configuration directory holds the two settings files,
    the log and the history directory, and the history directory holds
    history files only. *)

From Stdlib Require Import ZArith NArith List String Ascii Bool Lia.
From Stdlib.Strings Require Import Byte.
From Stdlib Require Import DecimalString PrimFloat.
From Stdlib Require Uint63 SpecFloat FloatOps.
From stdpp Require Import base option list gmap strings.

Local Open Scope string_scope.

(* ===================================================================== *)
(** ** JavaScript completions *)
(* ===================================================================== *)

Module Js.

(** Errors the modelled code can see thrown by the runtime or by its
    libraries. [OutsideModel] is not one of them: it marks a step whose
    effect this embedding does not follow (a write through a path that
    leaves the history directory, a lookup through a prototype that an
    assignment has replaced); nothing is claimed about the program from
    that point on. *)
Inductive Error : Type :=
| InvalidIV            (* createCipheriv / createDecipheriv: IV is not 16 bytes *)
| InvalidKeyLength     (* createCipheriv / createDecipheriv: key is not 32 bytes *)
| BadDecrypt           (* decipher.final: wrong final block or padding *)
| ReferenceError (ident : string)   (* read of an identifier with no binding *)
| TypeError            (* a value of the wrong kind, e.g. Buffer.from(undefined) *)
| RangeError           (* a duration that a socket timer does not accept *)
| ENOENT               (* a file, or a directory on the way to it, is missing *)
| ENAMETOOLONG         (* a file name longer than the file system allows *)
| SyntaxError          (* JSON.parse *)
| SendFailed (message : string)     (* a rejected sendMail / post / create *)
| RequestFailed (message : string) (status : option Z)
                       (* a rejected axios request, with the status of the
                          response it carries, if any *)
| LibraryError (message : string)   (* [new Error(message)] thrown by a library *)
| OutsideModel.

(** [error.message] *)
Definition message (e : Error) : string :=
  match e with
  | InvalidIV => "Invalid initialization vector"
  | InvalidKeyLength => "Invalid key length"
  | BadDecrypt => "bad decrypt"
  | ReferenceError ident => ident ++ " is not defined"
  | TypeError => "invalid argument type"
  | RangeError => "The value of msecs is out of range"
  | ENOENT => "ENOENT: no such file or directory"
  | ENAMETOOLONG => "ENAMETOOLONG: name too long"
  | SyntaxError => "Unexpected token in JSON"
  | SendFailed message => message
  | RequestFailed message _ => message
  | LibraryError message => message
  | OutsideModel => "outside the model"
  end.

(** [error.response?.status] *)
Definition response_status (e : Error) : option Z :=
  match e with
  | RequestFailed _ status => status
  | _ => None
  end.

(** The outcome of evaluating a function body: a value, or a throw. *)
Inductive Completion (A : Type) : Type :=
| Normal (a : A)
| Throw (e : Error).
Arguments Normal {A} a.
Arguments Throw {A} e.

Definition bind {A B} (c : Completion A) (k : A -> Completion B) : Completion B :=
  match c with
  | Normal a => k a
  | Throw e => Throw e
  end.

(** [try { body } catch (err) { handler }] *)
Definition try_catch {A} (body : Completion A) (handler : Error -> Completion A)
  : Completion A :=
  match body with
  | Normal a => Normal a
  | Throw e => handler e
  end.

Definition returns {A} (c : Completion A) : Prop := exists a, c = Normal a.
Definition raises {A} (c : Completion A) : Prop := exists e, c = Throw e.

(** What becomes of an awaited promise: it settles, or it stays pending
    for ever because the work behind it was stopped by an error raised
    outside every handler (in an event callback), which no [catch] of
    the awaiting code sees. *)
Inductive Awaited (A : Type) : Type :=
| Settled (a : A)
| Pending (uncaught : Error).
Arguments Settled {A} a.
Arguments Pending {A} uncaught.

(** Truthiness of a string: only the empty string is falsy. *)
Definition truthy (s : string) : bool :=
  match s with
  | EmptyString => false
  | String _ _ => true
  end.

(** [String.prototype.includes] for a one-character needle. *)
Fixpoint includes (c : ascii) (s : string) : bool :=
  match s with
  | EmptyString => false
  | String a rest => Ascii.eqb a c || includes c rest
  end.

(** [String.prototype.split] for a one-character separator. *)
Fixpoint split (sep : ascii) (s : string) : list string :=
  match s with
  | EmptyString => [EmptyString]
  | String a rest =>
      if Ascii.eqb a sep then EmptyString :: split sep rest
      else match split sep rest with
           | [] => [String a EmptyString]
           | p :: ps => String a p :: ps
           end
  end.

(** [Array.prototype.join] *)
Fixpoint join (sep : string) (parts : list string) : string :=
  match parts with
  | [] => EmptyString
  | p :: ps =>
      match ps with
      | [] => p
      | _ :: _ => p ++ sep ++ join sep ps
      end
  end.

(** [Array.prototype.shift]: the removed first element ([undefined] on an
    empty array) and the array that is left. *)
Definition shift {A} (parts : list A) : option A * list A :=
  match parts with
  | [] => (None, [])
  | p :: ps => (Some p, ps)
  end.

(** [a || b] on numbers: [0] is the falsy number. *)
Definition or_number (a : option Z) (b : Z) : Z :=
  match a with
  | Some n => if Z.eqb n 0 then b else n
  | None => b
  end.

(** Template-literal rendering of an integer. *)
Definition number_to_string (n : Z) : string :=
  NilZero.string_of_int (Z.to_int n).

(** *** Plain objects used as maps

    [serviceStatuses] and [serviceHistories] are object literals: a
    lookup [obj[key]] that finds no own property goes on to
    [Object.prototype]. The map of own properties is a [gmap] and an
    assignment [obj[key] = value] is an insertion; an entry at the key
    ["__proto__"] stands for the value that an assignment
    [obj['__proto__'] = value] has made the object's prototype. *)

(** A member of [Object.prototype]: a function with its [length], or,
    under ["__proto__"], the prototype object itself. All are truthy and
    none has a [status], a [push] or a [filter]. *)
Inductive Member : Type :=
| Method (length : nat)
| ObjectPrototype.

Definition Object_prototype_members : list (string * Member) :=
  [("constructor", Method 1);
   ("__defineGetter__", Method 2);
   ("__defineSetter__", Method 2);
   ("hasOwnProperty", Method 1);
   ("__lookupGetter__", Method 1);
   ("__lookupSetter__", Method 1);
   ("isPrototypeOf", Method 1);
   ("propertyIsEnumerable", Method 1);
   ("toString", Method 0);
   ("valueOf", Method 0);
   ("__proto__", ObjectPrototype);
   ("toLocaleString", Method 0)].

Definition Object_prototype (key : string) : option Member :=
  option_map snd (find (fun member => String.eqb (fst member) key) Object_prototype_members).

(** What [obj[key]] evaluates to. *)
Inductive Property (V : Type) : Type :=
| Own (v : V)            (* an own property *)
| Inherited (m : Member) (* a member of Object.prototype *)
| Absent                 (* undefined *)
| Replaced.              (* looked up in a prototype put there by an assignment *)
Arguments Own {V} v.
Arguments Inherited {V} m.
Arguments Absent {V}.
Arguments Replaced {V}.

(** [obj[key]] *)
Definition get {V} (obj : gmap string V) (key : string) : Property V :=
  match obj !! key with
  | Some v => Own v
  | None =>
      match obj !! "__proto__" with
      | Some _ => Replaced
      | None =>
          match Object_prototype key with
          | Some m => Inherited m
          | None => Absent
          end
      end
  end.

(** [delete obj[key]]: removes an own property; the prototype stays. *)
Definition delete_property {V} (key : string) (obj : gmap string V) : gmap string V :=
  if String.eqb key "__proto__" then obj else delete key obj.

(** A lookup that finds an own property or nothing. *)
Definition own_or_absent {V} (obj : gmap string V) (key : string) : bool :=
  match get obj key with
  | Own _ | Absent => true
  | Inherited _ | Replaced => false
  end.

End Js.

Notation "'let*' x ':=' c 'in' k" := (Js.bind c (fun x => k))
  (at level 10, x pattern, c at level 100, k at level 200).

(* ===================================================================== *)
(** ** Buffers and their hex encoding *)
(* ===================================================================== *)

Module Buffer.

Definition hex_digit (n : N) : ascii :=
  match n with
  | 0 => "0" | 1 => "1" | 2 => "2" | 3 => "3" | 4 => "4" | 5 => "5"
  | 6 => "6" | 7 => "7" | 8 => "8" | 9 => "9" | 10 => "a" | 11 => "b"
  | 12 => "c" | 13 => "d" | 14 => "e" | _ => "f"
  end%N%char.

(** Value of a hex digit, either case; [None] for any other character. *)
Definition hex_value (c : ascii) : option N :=
  let n := N_of_ascii c in
  if (48 <=? n)%N && (n <=? 57)%N then Some (n - 48)%N
  else if (97 <=? n)%N && (n <=? 102)%N then Some (n - 87)%N
  else if (65 <=? n)%N && (n <=? 70)%N then Some (n - 55)%N
  else None.

(** [buf.toString('hex')] *)
Fixpoint to_hex (buf : list byte) : string :=
  match buf with
  | [] => EmptyString
  | b :: rest =>
      let n := Byte.to_N b in
      String (hex_digit (n / 16)) (String (hex_digit (n mod 16)) (to_hex rest))
  end.

Definition byte_of_nibbles (h l : N) : byte :=
  match Byte.of_N (h * 16 + l) with
  | Some b => b
  | None => x00
  end.

(** [Buffer.from(s, 'hex')]: decodes two digits at a time and stops at
    the first pair that is not two hex digits. *)
Fixpoint from_hex (s : string) : list byte :=
  match s with
  | String a (String b rest) =>
      match hex_value a, hex_value b with
      | Some h, Some l => byte_of_nibbles h l :: from_hex rest
      | _, _ => []
      end
  | _ => []
  end.

End Buffer.

(* ===================================================================== *)
(** ** Credential vault *)
(* ===================================================================== *)

Module Vault.

(** [const IV_LENGTH = 16] *)
Definition IV_LENGTH : nat := 16.
(** Key size of ['aes-256-cbc']; [ENCRYPTION_KEY = crypto.randomBytes(32)]. *)
Definition KEY_LENGTH : nat := 32.
(** The delimiter between the IV and the ciphertext. *)
Definition delimiter : ascii := ":"%char.

(** The system entropy source behind [crypto.randomBytes]: an unbounded
    tape of bytes and the position of the next unread byte. *)
Record Entropy : Type := { tape : nat -> byte; cursor : nat }.

(** [crypto.randomBytes(n)]: the next [n] bytes of the tape. *)
Definition randomBytes (n : nat) (e : Entropy) : list byte * Entropy :=
  (map (tape e) (seq (cursor e) n),
   {| tape := tape e; cursor := cursor e + n |}).

(** The block cipher of the [crypto] module, which is not part of the
    program: what [cipher.update(text, 'utf8', 'hex') + cipher.final('hex')]
    and [decipher.update(encrypted, 'hex', 'utf8') + decipher.final('utf8')]
    compute for a key and an IV of the right sizes. *)
Class Aes256Cbc : Type := {
  cipher_hex : list byte -> list byte -> string -> string;
  decipher_utf8 : list byte -> list byte -> string -> Js.Completion string
}.

(** Deciphering under the key and IV that enciphered gives the text back. *)
Definition Lawful (C : Aes256Cbc) : Prop :=
  forall key iv text,
    length key = KEY_LENGTH -> length iv = IV_LENGTH ->
    decipher_utf8 key iv (cipher_hex key iv text) = Js.Normal text.

(** [crypto.createCipheriv('aes-256-cbc', key, iv)] and
    [crypto.createDecipheriv('aes-256-cbc', key, iv)] check the sizes of
    the IV and of the key before any data is processed. *)
Definition createCipheriv (key iv : list byte) : Js.Completion unit :=
  if negb (Nat.eqb (length iv) IV_LENGTH) then Js.Throw Js.InvalidIV
  else if negb (Nat.eqb (length key) KEY_LENGTH) then Js.Throw Js.InvalidKeyLength
  else Js.Normal tt.

Definition createDecipheriv (key iv : list byte) : Js.Completion unit :=
  createCipheriv key iv.

Section WithCipher.
Context {C : Aes256Cbc}.
Variable ENCRYPTION_KEY : list byte.

(** [function encrypt(text)] *)
Definition encrypt (text : string) (e : Entropy) : Js.Completion string * Entropy :=
  if negb (Js.truthy text) then (Js.Normal text, e)
  else
    let '(iv, e') := randomBytes IV_LENGTH e in
    (let* _ := createCipheriv ENCRYPTION_KEY iv in
     let encrypted := cipher_hex ENCRYPTION_KEY iv text in
     Js.Normal (Buffer.to_hex iv ++ String delimiter EmptyString ++ encrypted),
     e').

(** [function decrypt(text)] *)
Definition decrypt (text : string) : Js.Completion string :=
  if negb (Js.truthy text) || negb (Js.includes delimiter text) then Js.Normal text
  else
    let parts := Js.split delimiter text in
    let '(first, parts) := Js.shift parts in
    let* iv := match first with
               | Some hex => Js.Normal (Buffer.from_hex hex)
               | None => Js.Throw Js.TypeError
               end in
    let encrypted := Js.join (String delimiter EmptyString) parts in
    let* _ := createDecipheriv ENCRYPTION_KEY iv in
    decipher_utf8 ENCRYPTION_KEY iv encrypted.

End WithCipher.

(** A cipher that satisfies [Lawful], used to evaluate the vault on
    concrete inputs: the ciphertext is the hex of the plaintext bytes
    and ciphertext that is not the hex of some bytes is rejected when
    the final block is read. *)
Definition hex_cipher : Aes256Cbc := {|
  cipher_hex := fun _ _ text => Buffer.to_hex (list_byte_of_string text);
  decipher_utf8 := fun _ _ encrypted =>
    let bytes := Buffer.from_hex encrypted in
    if String.eqb (Buffer.to_hex bytes) encrypted
    then Js.Normal (string_of_list_byte bytes)
    else Js.Throw Js.BadDecrypt
|}.

End Vault.

(* ===================================================================== *)
(** ** Data model *)
(* ===================================================================== *)

(** The status strings ['up'], ['down'] and ['unknown'], and the value
    [undefined], which the update loop reads as the previous status when
    the looked-up record is not a result object. *)
Inductive Status : Type := up | down | unknown | undefined.

Definition Status_eqb (a b : Status) : bool :=
  match a, b with
  | up, up | down, down | unknown, unknown | undefined, undefined => true
  | _, _ => false
  end.

(** Wall-clock instants and durations are in milliseconds, as [Date.now()]
    gives them; an ISO timestamp string is modelled by the instant it
    denotes. *)
Definition Millis : Type := Z.

(** An entry of [services.json]: [{name, url, timeout, expectedStatus}]. *)
Module ServiceSpec.
Record t : Type := {
  name : string;
  url : string;
  timeout : option Z;
  expectedStatus : option Z
}.
End ServiceSpec.

(** The object returned by [checkService]; the status route builds one of
    the same shape with [null] in the last five fields. *)
Module CheckResult.
Record t : Type := {
  name : string;
  url : string;
  status : Status;
  statusCode : option Z;
  responseTime : option Millis;
  lastChecked : option Millis;
  error : option string
}.
End CheckResult.

(** An element of a service's history array. *)
Module HistoryEntry.
Record t : Type := {
  timestamp : option Millis;
  status : Status;
  statusCode : option Z;
  responseTime : option Millis;
  error : option string
}.
End HistoryEntry.

(** A JSON file of the configuration directory. *)
Inductive File (A : Type) : Type :=
| Missing
| Unparsable
| Content (a : A).
Arguments Missing {A}.
Arguments Unparsable {A}.
Arguments Content {A} a.

(** [fs.access] then [fs.readFile] then [JSON.parse]. *)
Definition read_json {A} (f : File A) : Js.Completion A :=
  match f with
  | Missing => Js.Throw Js.ENOENT
  | Unparsable => Js.Throw Js.SyntaxError
  | Content a => Js.Normal a
  end.

(* ===================================================================== *)
(** ** Paths of the history files *)
(* ===================================================================== *)

Module Fs.

(** An absolute path, as the list of its components, innermost first. *)
Definition Path : Type := list string.

(** [__dirname], [CONFIG_DIR] and [HISTORY_DIR]. *)
Definition dirname : Path := ["app"].
Definition CONFIG_DIR : Path := "config" :: dirname.
Definition HISTORY_DIR : Path := "history" :: CONFIG_DIR.

(** The longest file name the file system stores, in bytes. *)
Definition NAME_MAX : nat := 255.

Definition separator : ascii := "/"%char.
Definition NUL : ascii := Ascii.zero.

(** [path.join] normalises what it joins: empty and ["."] components
    are dropped and [".."] leaves the directory reached so far (the root
    is its own parent). *)
Fixpoint resolve (dir : Path) (components : list string) : Path :=
  match components with
  | [] => dir
  | c :: rest =>
      if String.eqb c "" || String.eqb c "." then resolve dir rest
      else if String.eqb c ".." then resolve (tl dir) rest
      else resolve (c :: dir) rest
  end.

(** [path.join(dir, relative)] *)
Definition join (dir : Path) (relative : string) : Path :=
  resolve dir (Js.split separator relative).

Fixpoint eqb (p q : Path) : bool :=
  match p, q with
  | [], [] => true
  | a :: p', b :: q' => String.eqb a b && eqb p' q'
  | _, _ => false
  end.

(** [p] is [dir] or lies below it. *)
Definition below (dir p : Path) : bool :=
  eqb (skipn (length p - length dir) p) dir.

(** Where a path leads: to a history file, named by what precedes its
    [".json"]; to a file directly in the configuration directory; into a
    directory of the configuration tree that does not exist (the program
    creates none but the history directory); or out of the
    configuration directory. *)
Inductive Target : Type :=
| HistoryFile (stem : string)
| ConfigFile (file : string)
| NoDirectory
| Elsewhere.

Definition stem (file : string) : string :=
  String.substring 0 (String.length file - 5) file.

Definition locate (p : Path) : Target :=
  match p with
  | [] => Elsewhere
  | file :: dir =>
      if eqb dir HISTORY_DIR then HistoryFile (stem file)
      else if eqb dir CONFIG_DIR then ConfigFile file
      else if below CONFIG_DIR dir then NoDirectory
      else Elsewhere
  end.

(** The file that [path.join(HISTORY_DIR, `${serviceName}.json`)] names,
    as the [fs] functions take it: they refuse a path with a NUL byte,
    and the file system refuses a file name longer than [NAME_MAX]. *)
Definition historyFile (serviceName : string) : Js.Completion Target :=
  let relative := serviceName ++ ".json" in
  if Js.includes NUL relative then Js.Throw Js.TypeError
  else
    match join HISTORY_DIR relative with
    | [] => Js.Normal Elsewhere
    | file :: dir =>
        if (NAME_MAX <? String.length file)%nat then Js.Throw Js.ENAMETOOLONG
        else Js.Normal (locate (file :: dir))
    end.

(** A service name that is a file name: no separator, no NUL byte, and
    short enough with its extension. *)
Definition plain (serviceName : string) : bool :=
  negb (Js.includes separator serviceName)
  && negb (Js.includes NUL serviceName)
  && (String.length serviceName + 5 <=? NAME_MAX)%nat.

End Fs.

(* ===================================================================== *)
(** ** Checker *)
(* ===================================================================== *)

Module Checker.

(** What the probed URL does with one GET request. *)
Inductive Endpoint : Type :=
| Responds (code : Z) (latency : Millis)      (* an HTTP response arrives *)
| Fails (message : string) (latency : Millis) (* DNS, refused connection, TLS *)
| Hangs                                       (* nothing ever arrives *)
| Unrequestable (message : string).
    (* the client refuses the URL (unsupported protocol, malformed URL)
       before it opens a connection or sets a timer *)

(** The request is made without a [validateStatus] option, so the
    client's default decides which responses resolve. *)
Definition validateStatus (status : Z) : bool :=
  (200 <=? status)%Z && (status <? 300)%Z.

Definition timeoutError (timeout : Millis) : Js.Error :=
  Js.RequestFailed ("timeout of " ++ Js.number_to_string timeout ++ "ms exceeded") None.

(** The client settles a request that got a response: it resolves with the
    response, or rejects with an error that carries it. *)
Definition settle (code : Z) : Js.Completion Z :=
  if validateStatus code then Js.Normal code
  else Js.Throw
         (Js.RequestFailed
            ("Request failed with status code " ++ Js.number_to_string code)
            (Some code)).

(** The longest duration a timer runs for: 2^31 - 1 ms. *)
Definition TIMEOUT_MAX : Millis := 2147483647%Z.

(** The time after which the request's timer fires: a duration that does
    not fit a timer is replaced by 1 ms. *)
Definition timer (timeout : Millis) : Millis :=
  if (TIMEOUT_MAX <? timeout)%Z then 1%Z else timeout.

(** [await axios.get(url, { timeout, headers })]: [response.status] or the
    rejection, and the time until the request settles. A response or a
    failure later than the timer is not waited for. A negative timeout
    is refused when the timer of the request's socket is set, in an
    event callback: the error is raised outside the request's promise,
    which never settles. *)
Definition axios_get (timeout : Millis) (ep : Endpoint)
  : Js.Awaited (Js.Completion Z * Millis) :=
  let timedOut := Js.Settled (Js.Throw (timeoutError timeout), timer timeout) in
  let requested (settled : Js.Awaited (Js.Completion Z * Millis)) :=
    if (timeout <? 0)%Z then Js.Pending Js.RangeError else settled in
  match ep with
  | Unrequestable msg => Js.Settled (Js.Throw (Js.RequestFailed msg None), 0%Z)
  | Responds code latency =>
      requested (if (timer timeout <? latency)%Z then timedOut
                 else Js.Settled (settle code, latency))
  | Fails msg latency =>
      requested (if (timer timeout <? latency)%Z then timedOut
                 else Js.Settled (Js.Throw (Js.RequestFailed msg None), latency))
  | Hangs => requested timedOut
  end.

(** [service.expectedStatus || 200] *)
Definition expected (service : ServiceSpec.t) : Z :=
  Js.or_number (ServiceSpec.expectedStatus service) 200.

(** [status || null] *)
Definition status_or_null (status : option Z) : option Z :=
  match status with
  | Some code => if Z.eqb code 0 then None else Some code
  | None => None
  end.

(** The result built in the [try] block, from [response.status]. *)
Definition on_response (service : ServiceSpec.t) (status : Z)
    (responseTime now : Millis) : CheckResult.t :=
  let isHealthy := Z.eqb status (expected service) in
  {| CheckResult.name := ServiceSpec.name service;
     CheckResult.url := ServiceSpec.url service;
     CheckResult.status := if isHealthy then up else down;
     CheckResult.statusCode := Some status;
     CheckResult.responseTime := Some responseTime;
     CheckResult.lastChecked := Some now;
     CheckResult.error :=
       if isHealthy then None
       else Some ("Expected status " ++ Js.number_to_string (expected service)
                  ++ ", got " ++ Js.number_to_string status) |}.

(** The result built in the [catch] block, from the caught error. *)
Definition on_error (service : ServiceSpec.t) (error : Js.Error)
    (responseTime now : Millis) : CheckResult.t :=
  {| CheckResult.name := ServiceSpec.name service;
     CheckResult.url := ServiceSpec.url service;
     CheckResult.status := down;
     CheckResult.statusCode := status_or_null (Js.response_status error);
     CheckResult.responseTime := Some responseTime;
     CheckResult.lastChecked := Some now;
     CheckResult.error := Some (Js.message error) |}.

(** The clock is read three times by a check: at its start, after the
    awaited request ([Date.now()]) and for the result's time stamp
    ([new Date()]). The two later readings are the world's: [resumed] is
    the time between the request settling and the second reading (the
    timer may fire late, the continuation may wait its turn), [stamped]
    the time between the second reading and the third. *)
Record Lag : Type := { resumed : Millis; stamped : Millis }.

(** [async function checkService(service)], started at [startTime]
    against an endpoint [ep]: its completion and the instant it is
    ready, unless its request never settles. *)
Definition checkService (service : ServiceSpec.t) (ep : Endpoint) (lag : Lag)
    (startTime : Millis) : Js.Awaited (Js.Completion CheckResult.t * Millis) :=
  match axios_get (Js.or_number (ServiceSpec.timeout service) 5000) ep with
  | Js.Pending uncaught => Js.Pending uncaught
  | Js.Settled (response, elapsed) =>
      let responseTime := (elapsed + resumed lag)%Z in
      let now := (startTime + responseTime + stamped lag)%Z in
      Js.Settled
        (Js.try_catch
           (let* status := response in
            Js.Normal (on_response service status responseTime now))
           (fun error => Js.Normal (on_error service error responseTime now)),
         now)
  end.

End Checker.

(* ===================================================================== *)
(** ** History persister *)
(* ===================================================================== *)

Module History.

(** Ninety days of 24 hours, in milliseconds: what separates an instant
    from the same time of day 90 days earlier in a time zone without
    clock changes, such as UTC. *)
Definition NINETY_DAYS : Millis := (90 * 24 * 60 * 60 * 1000)%Z.

(** [moment(timestamp).isAfter(cutoff)]; a [null] timestamp is an invalid
    moment, which is after nothing. *)
Definition isAfter (timestamp : option Millis) (cutoff : Millis) : bool :=
  match timestamp with
  | Some t => (cutoff <? t)%Z
  | None => false
  end.

(** The trim of [saveServiceHistory] at wall-clock time [now] in a
    process whose time zone is UTC. *)
Definition trim (now : Millis) (history : list HistoryEntry.t) : list HistoryEntry.t :=
  let ninetyDaysAgo := (now - NINETY_DAYS)%Z in
  List.filter (fun entry => isAfter (HistoryEntry.timestamp entry) ninetyDaysAgo) history.

(** [history.filter(entry => moment(entry.timestamp).isAfter(ninetyDaysAgo))] *)
Definition newerThan (ninetyDaysAgo : Millis) (history : list HistoryEntry.t)
  : list HistoryEntry.t :=
  List.filter (fun entry => isAfter (HistoryEntry.timestamp entry) ninetyDaysAgo) history.

(** [async function saveServiceHistory(serviceName, history)] on the
    history directory [files], where [ninetyDaysAgo] is the instant that
    [moment().subtract(90, 'days')] gives at the time of the call: the
    trimmed history it returns and the directory after the write, or
    the error of [fs.writeFile], which writes nothing. *)
Definition saveServiceHistory (ninetyDaysAgo : Millis) (serviceName : string)
    (history : list HistoryEntry.t) (files : gmap string (list HistoryEntry.t))
  : Js.Completion (list HistoryEntry.t) * gmap string (list HistoryEntry.t) :=
  let trimmedHistory := newerThan ninetyDaysAgo history in
  match Fs.historyFile serviceName with
  | Js.Normal (Fs.HistoryFile stem) =>
      (Js.Normal trimmedHistory, <[stem := trimmedHistory]> files)
  | Js.Normal Fs.NoDirectory => (Js.Throw Js.ENOENT, files)
  | Js.Normal (Fs.ConfigFile _) | Js.Normal Fs.Elsewhere => (Js.Throw Js.OutsideModel, files)
  | Js.Throw e => (Js.Throw e, files)
  end.

Definition is_up (entry : HistoryEntry.t) : bool :=
  Status_eqb (HistoryEntry.status entry) up.

Definition float_of_nat (n : nat) : float :=
  PrimFloat.of_uint63 (Uint63.of_Z (Z.of_nat n)).

(** [function calculateUptime(history)] on an array. *)
Definition calculateUptime (history : list HistoryEntry.t) : float :=
  match history with
  | [] => 100%float
  | _ :: _ =>
      let upEntries := List.filter is_up history in
      (float_of_nat (length upEntries) / float_of_nat (length history) * 100)%float
  end.

(** The digits of [n], at least three of them, with a point before the
    last two. *)
Definition hundredths_to_string (n : Z) : string :=
  let whole := NilZero.string_of_uint (N.to_uint (Z.to_N (n / 100))) in
  let frac := (n mod 100)%Z in
  whole ++ "." ++ (if (frac <? 10)%Z then "0" else "")
        ++ NilZero.string_of_uint (N.to_uint (Z.to_N frac)).

(** [x.toFixed(2)] for a double below 1e21: the integer [n] nearest to
    [100 x], the larger one on a tie, printed with two decimals. *)
Definition toFixed2 (x : float) : string :=
  match FloatOps.Prim2SF x with
  | SpecFloat.S754_nan => "NaN"
  | SpecFloat.S754_infinity s => if s then "-Infinity" else "Infinity"
  | SpecFloat.S754_zero _ => "0.00"
  | SpecFloat.S754_finite s m e =>
      let num := (Z.pos m * 100)%Z in
      let n := if (0 <=? e)%Z then (num * 2 ^ e)%Z
               else ((2 * num + 2 ^ (- e)) / (2 * 2 ^ (- e)))%Z in
      (if s then "-" else "") ++ hundredths_to_string n
  end.

(** [calculateUptime(history).toFixed(2)] on what a lookup in
    [serviceHistories] gave: an array; nothing, for which the callers
    pass [[]]; or a member of [Object.prototype], which is truthy, whose
    [length] is compared with 0 and which has no [filter]. *)
Definition uptimeOf (history : Js.Property (list HistoryEntry.t)) : Js.Completion string :=
  match history with
  | Js.Own history => Js.Normal (toFixed2 (calculateUptime history))
  | Js.Absent => Js.Normal (toFixed2 (calculateUptime []))
  | Js.Inherited (Js.Method 0) => Js.Normal (toFixed2 100%float)
  | Js.Inherited _ => Js.Throw Js.TypeError
  | Js.Replaced => Js.Throw Js.OutsideModel
  end.

End History.

(* ===================================================================== *)
(** ** Notification settings *)
(* ===================================================================== *)

(** The object stored in [notifications.json], with the four sections
    that the program's default settings have. *)
Module Notifications.

Module Auth.
Record t : Type := { user : string; pass : string }.
End Auth.

Module Smtp.
Record t : Type := {
  host : string; port : Z; secure : bool; requireTLS : bool; auth : Auth.t
}.
End Smtp.

Module Email.
Record t : Type := { enabled : bool; smtp : Smtp.t; from : string; to : string }.
End Email.

Module Teams.
Record t : Type := { enabled : bool; webhookUrl : string }.
End Teams.

Module Sms.
Record t : Type := {
  enabled : bool; accountSid : string; authToken : string;
  from : string; to : string
}.
End Sms.

Module Iphone.
Record t : Type := { enabled : bool; webhookUrl : string; description : string }.
End Iphone.

Record t : Type := {
  email : Email.t; teams : Teams.t; sms : Sms.t; iphone : Iphone.t
}.

(** The object [loadNotifications] returns from its [catch] block. *)
Definition default : t := {|
  email := {| Email.enabled := false;
              Email.smtp := {| Smtp.host := ""; Smtp.port := 587;
                               Smtp.secure := false; Smtp.requireTLS := true;
                               Smtp.auth := {| Auth.user := ""; Auth.pass := "" |} |};
              Email.from := ""; Email.to := "" |};
  teams := {| Teams.enabled := false; Teams.webhookUrl := "" |};
  sms := {| Sms.enabled := false; Sms.accountSid := ""; Sms.authToken := "";
            Sms.from := ""; Sms.to := "" |};
  iphone := {| Iphone.enabled := false; Iphone.webhookUrl := "";
               Iphone.description := "iPhone Shortcuts webhook for SMS forwarding" |}
|}.

Definition pass (n : t) : string := Auth.pass (Smtp.auth (Email.smtp (email n))).

Definition with_secrets (n : t) (pass accountSid authToken : string) : t :=
  let e := email n in
  let s := Email.smtp e in
  let a := Smtp.auth s in
  let m := sms n in
  {| email := {| Email.enabled := Email.enabled e;
                 Email.smtp := {| Smtp.host := Smtp.host s; Smtp.port := Smtp.port s;
                                  Smtp.secure := Smtp.secure s;
                                  Smtp.requireTLS := Smtp.requireTLS s;
                                  Smtp.auth := {| Auth.user := Auth.user a;
                                                  Auth.pass := pass |} |};
                 Email.from := Email.from e; Email.to := Email.to e |};
     teams := teams n;
     sms := {| Sms.enabled := Sms.enabled m; Sms.accountSid := accountSid;
               Sms.authToken := authToken; Sms.from := Sms.from m; Sms.to := Sms.to m |};
     iphone := iphone n |}.

End Notifications.

(* ===================================================================== *)
(** ** Notification dispatcher *)
(* ===================================================================== *)

Module Dispatcher.

(** The four channels, named as the settings name them. *)
Inductive Channel : Type := Email | Teams | Sms | Iphone.

(** What the provider does with one send that it answers. *)
Inductive SendOutcome : Type :=
| Delivered
| Refused (message : string).

(** One call of [sendMail], [axios.post] or [messages.create]. *)
Record Attempt : Type := { channel : Channel; outcome : SendOutcome }.

(** A global identifier that the program assigns but never declares: it
    has no binding until the first assignment, and reading it before
    that throws. *)
Inductive Binding (A : Type) : Type :=
| Unbound
| Bound (a : A).
Arguments Unbound {A}.
Arguments Bound {A} a.

(** The two channel clients, [transporter] and [twilioClient]. *)
Record Clients : Type := {
  transporter : Binding Notifications.Smtp.t;
  twilioClient : Binding (string * string)
}.

(** Dispatcher code runs with the log of the sends made so far; the log
    keeps what was sent before a throw. *)
Definition Eff (A : Type) : Type := list Attempt -> Js.Completion A * list Attempt.

Definition ret {A} (a : A) : Eff A := fun log => (Js.Normal a, log).
Definition throw {A} (e : Js.Error) : Eff A := fun log => (Js.Throw e, log).
Definition and_then {A B} (m : Eff A) (k : A -> Eff B) : Eff B :=
  fun log =>
    match m log with
    | (Js.Normal a, log') => k a log'
    | (Js.Throw e, log') => (Js.Throw e, log')
    end.

(** [try { body } catch (error) { logger.error(...) }] *)
Definition try_log (body : Eff unit) : Eff unit :=
  fun log =>
    match body log with
    | (Js.Normal a, log') => (Js.Normal a, log')
    | (Js.Throw _, log') => (Js.Normal tt, log')
    end.

(** The awaited provider call of a channel. *)
Definition send (net : Channel -> SendOutcome) (ch : Channel) : Eff unit :=
  fun log =>
    let log' := (log ++ [{| channel := ch; outcome := net ch |}])%list in
    match net ch with
    | Delivered => (Js.Normal tt, log')
    | Refused msg => (Js.Throw (Js.SendFailed msg), log')
    end.

(** [if (!ident) { logger.warn(...); return; }] on a client identifier,
    then the rest of the function. *)
Definition with_client {A} (ident : string) (client : Binding A) (rest : Eff unit)
  : Eff unit :=
  match client with
  | Unbound => throw (Js.ReferenceError ident)
  | Bound _ => rest
  end.

(** The sends a dispatch makes when both clients are bound: one per
    enabled channel (with its URL set, for the webhooks), in the fixed
    order, each with the outcome its provider gives. *)
Definition expected_attempts (net : Channel -> SendOutcome)
    (n : Notifications.t) : list Attempt :=
  let attempt ch := {| channel := ch; outcome := net ch |} in
  ((if Notifications.Email.enabled (Notifications.email n)
    then [attempt Email] else []) ++
   (if Notifications.Teams.enabled (Notifications.teams n)
       && Js.truthy (Notifications.Teams.webhookUrl (Notifications.teams n))
    then [attempt Teams] else []) ++
   (if Notifications.Sms.enabled (Notifications.sms n)
    then [attempt Sms] else []) ++
   (if Notifications.Iphone.enabled (Notifications.iphone n)
       && Js.truthy (Notifications.Iphone.webhookUrl (Notifications.iphone n))
    then [attempt Iphone] else []))%list.

Section Channels.
Variable clients : Clients.
Variable net : Channel -> SendOutcome.
Variable notifications : Notifications.t.

(** [async function sendEmailNotification(service, notifications)] *)
Definition sendEmailNotification : Eff unit :=
  with_client "transporter" (transporter clients) (try_log (send net Email)).

(** [async function sendTeamsNotification(service, notifications)] *)
Definition sendTeamsNotification : Eff unit :=
  let teams := Notifications.teams notifications in
  if negb (Notifications.Teams.enabled teams)
     || negb (Js.truthy (Notifications.Teams.webhookUrl teams))
  then ret tt
  else try_log (send net Teams).

(** [async function sendSmsNotification(service, notifications)] *)
Definition sendSmsNotification : Eff unit :=
  with_client "twilioClient" (twilioClient clients) (try_log (send net Sms)).

(** [async function sendIphoneNotification(service, notifications)] *)
Definition sendIphoneNotification : Eff unit :=
  let iphone := Notifications.iphone notifications in
  if negb (Notifications.Iphone.enabled iphone)
     || negb (Js.truthy (Notifications.Iphone.webhookUrl iphone))
  then ret tt
  else try_log (send net Iphone).

(** The body of [sendNotifications] after the settings are loaded. *)
Definition dispatch (status previousStatus : Status) : Eff unit :=
  if Status_eqb previousStatus status then ret tt
  else
    and_then
      (if Notifications.Email.enabled (Notifications.email notifications)
       then sendEmailNotification else ret tt) (fun _ =>
    and_then
      (if Notifications.Teams.enabled (Notifications.teams notifications)
       then sendTeamsNotification else ret tt) (fun _ =>
    and_then
      (if Notifications.Sms.enabled (Notifications.sms notifications)
       then sendSmsNotification else ret tt) (fun _ =>
      (if Notifications.Iphone.enabled (Notifications.iphone notifications)
       then sendIphoneNotification else ret tt)))).

End Channels.

Section WithCipher.
Context {C : Vault.Aes256Cbc}.
Variable ENCRYPTION_KEY : list byte.

Definition decrypt_if_set (field : string) : Js.Completion string :=
  if Js.truthy field then Vault.decrypt ENCRYPTION_KEY field else Js.Normal field.

(** The [try] block of [loadNotifications]. *)
Definition read_and_decrypt (file : File Notifications.t)
  : Js.Completion Notifications.t :=
  let* notifications := read_json file in
  let* pass := decrypt_if_set (Notifications.pass notifications) in
  let* accountSid :=
    decrypt_if_set (Notifications.Sms.accountSid (Notifications.sms notifications)) in
  let* authToken :=
    decrypt_if_set (Notifications.Sms.authToken (Notifications.sms notifications)) in
  Js.Normal (Notifications.with_secrets notifications pass accountSid authToken).

(** [async function loadNotifications()] *)
Definition loadNotifications (file : File Notifications.t) : Notifications.t :=
  match read_and_decrypt file with
  | Js.Normal notifications => notifications
  | Js.Throw _ => Notifications.default
  end.

(** [twilio(accountSid, authToken)]: the library's constructor refuses an
    account id that does not start with "AC". *)
Definition twilio (accountSid authToken : string) : Js.Completion (string * string) :=
  if String.prefix "AC" accountSid then Js.Normal (accountSid, authToken)
  else Js.Throw (Js.LibraryError "accountSid must start with AC").

(** [async function initializeNotifications()]: its completion and the
    two clients after its assignments. The transporter is assigned
    before the SMS client is constructed, so it stays assigned when the
    constructor throws. *)
Definition initializeNotifications (file : File Notifications.t) (clients : Clients)
  : Js.Completion unit * Clients :=
  let notifications := loadNotifications file in
  let email := Notifications.email notifications in
  let smtp := Notifications.Email.smtp email in
  let sms := Notifications.sms notifications in
  let transporter' :=
    if Notifications.Email.enabled email
       && Js.truthy (Notifications.Smtp.host smtp)
       && Js.truthy (Notifications.Auth.user (Notifications.Smtp.auth smtp))
       && Js.truthy (Notifications.Auth.pass (Notifications.Smtp.auth smtp))
    then Bound smtp else transporter clients in
  if Notifications.Sms.enabled sms
     && Js.truthy (Notifications.Sms.accountSid sms)
     && Js.truthy (Notifications.Sms.authToken sms)
  then
    match twilio (Notifications.Sms.accountSid sms) (Notifications.Sms.authToken sms) with
    | Js.Normal client =>
        (Js.Normal tt, {| transporter := transporter'; twilioClient := Bound client |})
    | Js.Throw e =>
        (Js.Throw e, {| transporter := transporter'; twilioClient := twilioClient clients |})
    end
  else (Js.Normal tt, {| transporter := transporter'; twilioClient := twilioClient clients |}).

(** [async function sendNotifications(service, previousStatus)] *)
Definition sendNotifications (file : File Notifications.t) (clients : Clients)
    (net : Channel -> SendOutcome) (service : CheckResult.t)
    (previousStatus : Status) : Eff unit :=
  let notifications := loadNotifications file in
  dispatch clients net notifications (CheckResult.status service) previousStatus.

End WithCipher.

End Dispatcher.

(* ===================================================================== *)
(** ** Monitoring state, cycle and routes *)
(* ===================================================================== *)

Module Monitor.

(** The files of the configuration directory and the module-level
    variables of the process, with the trace of what the dispatcher was
    asked to do and did. [historyFiles] is the history directory: the
    file [<stem>.json] is found under [stem]. *)
Record State : Type := {
  servicesFile : File (list ServiceSpec.t);
  notificationsFile : File Notifications.t;
  historyFiles : gmap string (list HistoryEntry.t);
  serviceStatuses : gmap string CheckResult.t;
  serviceHistories : gmap string (list HistoryEntry.t);
  clients : Dispatcher.Clients;
  dispatched : list (CheckResult.t * Status);
  attempts : list Dispatcher.Attempt
}.

(** The outside world of a running monitor: what each URL does with a
    request started at a given instant, how late the clock is read
    after that request, the instant that the calendar of the process's
    time zone places 90 days before a given one
    ([moment().subtract(90, 'days')]), and what the providers do with a
    send. *)
Record World : Type := {
  endpoint : string -> Millis -> Checker.Endpoint;
  lag : string -> Millis -> Checker.Lag;
  ninetyDaysAgo : Millis -> Millis;
  net : Dispatcher.Channel -> Dispatcher.SendOutcome
}.

(** [async function loadServices()] *)
Definition loadServices (st : State) : list ServiceSpec.t :=
  match read_json (servicesFile st) with
  | Js.Normal services => services
  | Js.Throw _ => []
  end.

(** The object pushed on a history array for a result. *)
Definition entry_of (result : CheckResult.t) : HistoryEntry.t :=
  {| HistoryEntry.timestamp := CheckResult.lastChecked result;
     HistoryEntry.status := CheckResult.status result;
     HistoryEntry.statusCode := CheckResult.statusCode result;
     HistoryEntry.responseTime := CheckResult.responseTime result;
     HistoryEntry.error := CheckResult.error result |}.

(** [await Promise.all(promises)]: a rejection if there is one; otherwise
    pending while a promise is; otherwise the values in order and the
    instant the last promise settles. *)
Fixpoint Promise_all {A} (started : Millis)
    (promises : list (Js.Awaited (Js.Completion A * Millis)))
  : Js.Awaited (Js.Completion (list A) * Millis) :=
  match promises with
  | [] => Js.Settled (Js.Normal [], started)
  | promise :: rest =>
      match promise, Promise_all started rest with
      | Js.Settled (Js.Throw e, t), _ => Js.Settled (Js.Throw e, t)
      | _, Js.Settled (Js.Throw e, t) => Js.Settled (Js.Throw e, t)
      | Js.Pending uncaught, _ => Js.Pending uncaught
      | _, Js.Pending uncaught => Js.Pending uncaught
      | Js.Settled (Js.Normal a, t), Js.Settled (Js.Normal others, latest) =>
          Js.Settled (Js.Normal (a :: others), Z.max t latest)
      end
  end.

(** The fan-out of [checkAllServices], started at [startTime]: the
    results and the instant they are all there. When a probe never
    settles, neither does the fan-out, and the update loop never runs:
    the cycle ends with the error that the probe raised outside every
    handler. *)
Definition fanOut (w : World) (startTime : Millis) (st : State)
  : Js.Completion (list CheckResult.t) * Millis :=
  let services := loadServices st in
  let promises :=
    map (fun service =>
           Checker.checkService service
             (endpoint w (ServiceSpec.url service) startTime)
             (lag w (ServiceSpec.url service) startTime) startTime) services in
  match Promise_all startTime promises with
  | Js.Settled results => results
  | Js.Pending uncaught => (Js.Throw uncaught, startTime)
  end.

(** [previousEntry ? previousEntry.status : 'unknown'], where
    [previousEntry = serviceStatuses[name]]. *)
Definition previousStatus (st : State) (name : string) : Js.Completion Status :=
  match Js.get (serviceStatuses st) name with
  | Js.Own previousEntry => Js.Normal (CheckResult.status previousEntry)
  | Js.Inherited _ => Js.Normal undefined
  | Js.Absent => Js.Normal unknown
  | Js.Replaced => Js.Throw Js.OutsideModel
  end.

(** The array that [serviceHistories[name].push(...)] pushes on, after
    [if (!serviceHistories[name]) serviceHistories[name] = []]. *)
Definition historyToPush (st : State) (name : string)
  : Js.Completion (list HistoryEntry.t) :=
  match Js.get (serviceHistories st) name with
  | Js.Own history => Js.Normal history
  | Js.Absent => Js.Normal []
  | Js.Inherited _ => Js.Throw Js.TypeError
  | Js.Replaced => Js.Throw Js.OutsideModel
  end.

Section WithCipher.
Context {C : Vault.Aes256Cbc}.
Variable ENCRYPTION_KEY : list byte.

(** The call [await sendNotifications(result, previousStatus)] made by the
    cycle: it is recorded, and its sends are added to the trace. *)
Definition notify (w : World) (result : CheckResult.t) (previous : Status) (st : State)
  : Js.Completion unit * State :=
  let '(completion, log) :=
    Dispatcher.sendNotifications ENCRYPTION_KEY (notificationsFile st) (clients st)
      (net w) result previous (attempts st) in
  (completion,
   {| servicesFile := servicesFile st;
      notificationsFile := notificationsFile st;
      historyFiles := historyFiles st;
      serviceStatuses := serviceStatuses st;
      serviceHistories := serviceHistories st;
      clients := clients st;
      dispatched := (dispatched st ++ [(result, previous)])%list;
      attempts := log |}).

(** One iteration of the update loop of [checkAllServices], its history
    saved at wall-clock time [now]. The entry is pushed on the in-memory
    history before the save is awaited, and stays there when the save
    throws; the status is stored and the dispatcher called only after
    the save. *)
Definition processResult (w : World) (now : Millis) (result : CheckResult.t) (st : State)
  : Js.Completion unit * State :=
  let name := CheckResult.name result in
  match previousStatus st name with
  | Js.Throw e => (Js.Throw e, st)
  | Js.Normal previous =>
      match historyToPush st name with
      | Js.Throw e => (Js.Throw e, st)
      | Js.Normal history =>
          let pushed := (history ++ [entry_of result])%list in
          match History.saveServiceHistory (ninetyDaysAgo w now) name pushed
                  (historyFiles st) with
          | (Js.Throw e, _) =>
              (Js.Throw e,
               {| servicesFile := servicesFile st;
                  notificationsFile := notificationsFile st;
                  historyFiles := historyFiles st;
                  serviceStatuses := serviceStatuses st;
                  serviceHistories := <[name := pushed]> (serviceHistories st);
                  clients := clients st;
                  dispatched := dispatched st;
                  attempts := attempts st |})
          | (Js.Normal trimmed, files) =>
              let st' :=
                {| servicesFile := servicesFile st;
                   notificationsFile := notificationsFile st;
                   historyFiles := files;
                   serviceStatuses := <[name := result]> (serviceStatuses st);
                   serviceHistories := <[name := trimmed]> (serviceHistories st);
                   clients := clients st;
                   dispatched := dispatched st;
                   attempts := attempts st |} in
              if negb (Status_eqb previous (CheckResult.status result))
              then notify w result previous st'
              else (Js.Normal tt, st')
          end
      end
  end.

(** The update loop: [for (const result of results) { ... }]. *)
Fixpoint updatePhase (w : World) (now : Millis) (results : list CheckResult.t) (st : State)
  : Js.Completion unit * State :=
  match results with
  | [] => (Js.Normal tt, st)
  | result :: rest =>
      match processResult w now result st with
      | (Js.Normal _, st') => updatePhase w now rest st'
      | (Js.Throw e, st') => (Js.Throw e, st')
      end
  end.

(** [async function checkAllServices()], run without interruption from
    [startTime]: the results it returns, the state it leaves and the
    instant it completes. *)
Definition checkAllServices (w : World) (startTime : Millis) (st : State)
  : Js.Completion (list CheckResult.t) * State * Millis :=
  match fanOut w startTime st with
  | (Js.Normal results, settled) =>
      match updatePhase w settled results st with
      | (Js.Normal _, st') => (Js.Normal results, st', settled)
      | (Js.Throw e, st') => (Js.Throw e, st', settled)
      end
  | (Js.Throw e, settled) => (Js.Throw e, st, settled)
  end.

End WithCipher.

(** [try { await fs.unlink(historyFile) } catch (err) { }] on the files
    of the configuration directory: a path that leads to one of them
    removes it, any other path changes none of them. *)
Definition unlinkHistoryFile (serviceName : string) (st : State)
  : File (list ServiceSpec.t) * File Notifications.t * gmap string (list HistoryEntry.t) :=
  match Fs.historyFile serviceName with
  | Js.Normal (Fs.HistoryFile stem) =>
      (servicesFile st, notificationsFile st, delete stem (historyFiles st))
  | Js.Normal (Fs.ConfigFile file) =>
      (if String.eqb file "services.json" then Missing else servicesFile st,
       if String.eqb file "notifications.json" then Missing else notificationsFile st,
       historyFiles st)
  | _ => (servicesFile st, notificationsFile st, historyFiles st)
  end.

(** [app.delete('/api/services/:name')]: the response status and the
    state after the handler. *)
Definition deleteService (serviceName : string) (st : State) : Z * State :=
  let services := loadServices st in
  let updatedServices :=
    List.filter (fun service => negb (String.eqb (ServiceSpec.name service) serviceName))
      services in
  if Nat.eqb (length services) (length updatedServices) then (404%Z, st)
  else
    let saved :=
      {| servicesFile := Content updatedServices;
         notificationsFile := notificationsFile st;
         historyFiles := historyFiles st;
         serviceStatuses := Js.delete_property serviceName (serviceStatuses st);
         serviceHistories := Js.delete_property serviceName (serviceHistories st);
         clients := clients st;
         dispatched := dispatched st;
         attempts := attempts st |} in
    let '(services', notifications', histories') := unlinkHistoryFile serviceName saved in
    (204%Z,
     {| servicesFile := services';
        notificationsFile := notifications';
        historyFiles := histories';
        serviceStatuses := serviceStatuses saved;
        serviceHistories := serviceHistories saved;
        clients := clients st;
        dispatched := dispatched st;
        attempts := attempts st |}).

(** The spread [{...status, uptime}] of a result object. *)
Record StatusView : Type := { record : CheckResult.t; uptime : string }.

(** An element of the array sent by [app.get('/api/services')]: the
    spread of a result object, or, when [status] is a member of
    [Object.prototype] (which has no enumerable property), the uptime
    alone. *)
Inductive Listed : Type :=
| Shown (view : StatusView)
| Bare (uptime : string).

(** The object used for a service with no entry in [serviceStatuses]. *)
Definition placeholder (service : ServiceSpec.t) : CheckResult.t :=
  {| CheckResult.name := ServiceSpec.name service;
     CheckResult.url := ServiceSpec.url service;
     CheckResult.status := unknown;
     CheckResult.statusCode := None;
     CheckResult.responseTime := None;
     CheckResult.lastChecked := None;
     CheckResult.error := None |}.

(** The callback mapped over the services by the status route. *)
Definition statusView (st : State) (service : ServiceSpec.t) : Js.Completion Listed :=
  let name := ServiceSpec.name service in
  match Js.get (serviceStatuses st) name with
  | Js.Replaced => Js.Throw Js.OutsideModel
  | Js.Own status =>
      let* uptime := History.uptimeOf (Js.get (serviceHistories st) name) in
      Js.Normal (Shown {| record := status; uptime := uptime |})
  | Js.Absent =>
      let* uptime := History.uptimeOf (Js.get (serviceHistories st) name) in
      Js.Normal (Shown {| record := placeholder service; uptime := uptime |})
  | Js.Inherited _ =>
      let* uptime := History.uptimeOf (Js.get (serviceHistories st) name) in
      Js.Normal (Bare uptime)
  end.

(** [services.map(callback)], where the callback can throw. *)
Fixpoint mapM {A B} (f : A -> Js.Completion B) (l : list A) : Js.Completion (list B) :=
  match l with
  | [] => Js.Normal []
  | a :: rest =>
      let* b := f a in
      let* bs := mapM f rest in
      Js.Normal (b :: bs)
  end.

(** [app.get('/api/services')]: the array it sends, or the error that
    leaves the handler. *)
Definition listStatuses (st : State) : Js.Completion (list Listed) :=
  mapM (statusView st) (loadServices st).

End Monitor.

(* ===================================================================== *)
(** ** Scheduler *)
(* ===================================================================== *)

Module Scheduler.

(** [setInterval(checkAllServices, 30000)] *)
Definition PERIOD : Millis := 30000%Z.

(** A call of [checkAllServices] that awaits its probes: the instant
    they have all settled and the fan-out's outcome. *)
Record Cycle : Type := {
  settlesAt : Millis;
  outcome : Js.Completion (list CheckResult.t)
}.

(** The process after [initialize]: the instant of the next timer tick,
    the cycles in flight, and the monitoring state. *)
Record Process : Type := {
  nextTick : Millis;
  running : list Cycle;
  mon : Monitor.State
}.

(** The timer fires: the callback calls [checkAllServices], which loads
    the services and starts its probes. *)
Definition tick (w : Monitor.World) (p : Process) : Process :=
  let '(results, settled) := Monitor.fanOut w (nextTick p) (mon p) in
  {| nextTick := (nextTick p + PERIOD)%Z;
     running := (running p ++ [{| settlesAt := settled; outcome := results |}])%list;
     mon := mon p |}.

(** The cycle in flight whose probes settle first, and the others. *)
Fixpoint pick_earliest (cycles : list Cycle) : option (Cycle * list Cycle) :=
  match cycles with
  | [] => None
  | c :: rest =>
      match pick_earliest rest with
      | None => Some (c, [])
      | Some (d, others) =>
          if (settlesAt c <=? settlesAt d)%Z then Some (c, rest)
          else Some (d, c :: others)
      end
  end.

Section WithCipher.
Context {C : Vault.Aes256Cbc}.
Variable ENCRYPTION_KEY : list byte.

(** The probes of a cycle have settled: its update loop runs. *)
Definition finish (w : Monitor.World) (c : Cycle) (others : list Cycle) (p : Process)
  : Process :=
  {| nextTick := nextTick p;
     running := others;
     mon := match outcome c with
            | Js.Normal results =>
                snd (Monitor.updatePhase ENCRYPTION_KEY w (settlesAt c) results (mon p))
            | Js.Throw _ => mon p
            end |}.

(** The next thing that happens: the earliest cycle in flight completes
    if its probes settle by the next tick, otherwise the timer fires.
    The update loop of a completing cycle is run at the instant its
    probes settle. *)
Definition step (w : Monitor.World) (p : Process) : Process :=
  match pick_earliest (running p) with
  | Some (c, others) =>
      if (settlesAt c <=? nextTick p)%Z then finish w c others p else tick w p
  | None => tick w p
  end.

Fixpoint run (w : Monitor.World) (steps : nat) (p : Process) : Process :=
  match steps with
  | O => p
  | S n => run w n (step w p)
  end.

(** [initialize()]: the clients are initialised, the histories loaded and
    the first cycle awaited; then the timer is set. [None] when one of
    them throws, which leaves no timer. *)
Definition initialize (w : Monitor.World) (startTime : Millis) (st : Monitor.State)
  : option Process :=
  match Dispatcher.initializeNotifications ENCRYPTION_KEY
          (Monitor.notificationsFile st) (Monitor.clients st) with
  | (Js.Throw _, _) => None
  | (Js.Normal _, clients) =>
      let st0 :=
        {| Monitor.servicesFile := Monitor.servicesFile st;
           Monitor.notificationsFile := Monitor.notificationsFile st;
           Monitor.historyFiles := Monitor.historyFiles st;
           Monitor.serviceStatuses := Monitor.serviceStatuses st;
           Monitor.serviceHistories :=
             fold_left
               (fun histories service =>
                  <[ServiceSpec.name service :=
                      match Monitor.historyFiles st !! ServiceSpec.name service with
                      | Some history => history
                      | None => []
                      end]> histories)
               (Monitor.loadServices st) (Monitor.serviceHistories st);
           Monitor.clients := clients;
           Monitor.dispatched := Monitor.dispatched st;
           Monitor.attempts := Monitor.attempts st |} in
      match Monitor.checkAllServices ENCRYPTION_KEY w startTime st0 with
      | (Js.Normal _, st', finished) =>
          Some {| nextTick := (finished + PERIOD)%Z; running := []; mon := st' |}
      | (Js.Throw _, _, _) => None
      end
  end.

End WithCipher.

End Scheduler.

(* ===================================================================== *)
(** ** Administrative routes *)
(* ===================================================================== *)

Module Routes.

(** What a route handler does with its request: a JSON body sent with a
    status, an error payload [{ error }] sent with a status, an empty
    response, or no response at all because an error left the handler. *)
Inductive Response (A : Type) : Type :=
| Json (status : Z) (body : A)
| Failure (status : Z) (error : string)
| Empty (status : Z)
| Unhandled (e : Js.Error).
Arguments Json {A} status body.
Arguments Failure {A} status error.
Arguments Empty {A} status.
Arguments Unhandled {A} e.

(** [services.some(service => service.name === name)] *)
Definition known (name : string) (services : list ServiceSpec.t) : bool :=
  existsb (fun service => String.eqb (ServiceSpec.name service) name) services.

(** [app.post('/api/services')], started at [startTime]. *)
Definition addService (w : Monitor.World) (startTime : Millis)
    (newService : ServiceSpec.t) (st : Monitor.State)
  : Response Monitor.StatusView * Monitor.State :=
  let name := ServiceSpec.name newService in
  if negb (Js.truthy name) || negb (Js.truthy (ServiceSpec.url newService))
  then (Failure 400 "Name and URL are required", st)
  else
    let services := Monitor.loadServices st in
    if known name services
    then (Failure 400 "A service with this name already exists", st)
    else
      let st1 :=
        {| Monitor.servicesFile := Content (services ++ [newService])%list;
           Monitor.notificationsFile := Monitor.notificationsFile st;
           Monitor.historyFiles := Monitor.historyFiles st;
           Monitor.serviceStatuses := Monitor.serviceStatuses st;
           Monitor.serviceHistories := <[name := []]> (Monitor.serviceHistories st);
           Monitor.clients := Monitor.clients st;
           Monitor.dispatched := Monitor.dispatched st;
           Monitor.attempts := Monitor.attempts st |} in
      match Checker.checkService newService
              (Monitor.endpoint w (ServiceSpec.url newService) startTime)
              (Monitor.lag w (ServiceSpec.url newService) startTime) startTime with
      | Js.Pending uncaught => (Unhandled uncaught, st1)
      | Js.Settled (Js.Throw e, _) => (Unhandled e, st1)
      | Js.Settled (Js.Normal result, finished) =>
          match Js.get (Monitor.serviceHistories st1) name with
          | Js.Own history =>
              let pushed := (history ++ [Monitor.entry_of result])%list in
              match History.saveServiceHistory (Monitor.ninetyDaysAgo w finished) name
                      pushed (Monitor.historyFiles st1) with
              | (Js.Throw e, _) =>
                  (Unhandled e,
                   {| Monitor.servicesFile := Monitor.servicesFile st1;
                      Monitor.notificationsFile := Monitor.notificationsFile st1;
                      Monitor.historyFiles := Monitor.historyFiles st1;
                      Monitor.serviceStatuses := Monitor.serviceStatuses st1;
                      Monitor.serviceHistories :=
                        <[name := pushed]> (Monitor.serviceHistories st1);
                      Monitor.clients := Monitor.clients st1;
                      Monitor.dispatched := Monitor.dispatched st1;
                      Monitor.attempts := Monitor.attempts st1 |})
              | (Js.Normal _, files) =>
                  let st2 :=
                    {| Monitor.servicesFile := Monitor.servicesFile st1;
                       Monitor.notificationsFile := Monitor.notificationsFile st1;
                       Monitor.historyFiles := files;
                       Monitor.serviceStatuses :=
                         <[CheckResult.name result := result]> (Monitor.serviceStatuses st1);
                       Monitor.serviceHistories :=
                         <[name := pushed]> (Monitor.serviceHistories st1);
                       Monitor.clients := Monitor.clients st1;
                       Monitor.dispatched := Monitor.dispatched st1;
                       Monitor.attempts := Monitor.attempts st1 |} in
                  match History.uptimeOf (Js.get (Monitor.serviceHistories st2) name) with
                  | Js.Normal uptime =>
                      (Json 201 {| Monitor.record := result; Monitor.uptime := uptime |}, st2)
                  | Js.Throw e => (Unhandled e, st2)
                  end
              end
          | _ => (Unhandled Js.TypeError, st1)
          end
      end.

(** The body of the history route's answer: [{ name, history, uptime }],
    from which [JSON.stringify] leaves out a [history] that is a
    function. *)
Record HistoryView : Type := {
  name : string;
  history : option (list HistoryEntry.t);
  uptime : string
}.

(** [app.get('/api/services/:name/history')] *)
Definition getHistory (serviceName : string) (st : Monitor.State) : Response HistoryView :=
  if negb (known serviceName (Monitor.loadServices st))
  then Failure 404 "Service not found"
  else
    let history := Js.get (Monitor.serviceHistories st) serviceName in
    match History.uptimeOf history with
    | Js.Throw e => Unhandled e
    | Js.Normal uptime =>
        Json 200 {| name := serviceName;
                    history := match history with
                               | Js.Own history => Some history
                               | Js.Absent => Some []
                               | Js.Inherited _ | Js.Replaced => None
                               end;
                    uptime := uptime |}
    end.


(** [secret ? '***' : ''] *)
Definition mask (secret : string) : string :=
  if Js.truthy secret then "***" else "".

(** The object sent by [app.get('/api/notifications')] for loaded settings. *)
Definition safeNotifications (notifications : Notifications.t) : Notifications.t :=
  Notifications.with_secrets notifications
    (mask (Notifications.pass notifications))
    (mask (Notifications.Sms.accountSid (Notifications.sms notifications)))
    (mask (Notifications.Sms.authToken (Notifications.sms notifications))).

Section WithCipher.
Context {C : Vault.Aes256Cbc}.
Variable ENCRYPTION_KEY : list byte.

Definition encrypt_if_set (field : string) (e : Vault.Entropy)
  : Js.Completion string * Vault.Entropy :=
  if Js.truthy field then Vault.encrypt ENCRYPTION_KEY field e else (Js.Normal field, e).

(** [async function saveNotifications(notifications)]: the content written
    to [notifications.json], and the entropy left. *)
Definition saveNotifications (notifications : Notifications.t) (e : Vault.Entropy)
  : Js.Completion Notifications.t * Vault.Entropy :=
  match encrypt_if_set (Notifications.pass notifications) e with
  | (Js.Throw err, e1) => (Js.Throw err, e1)
  | (Js.Normal pass, e1) =>
      match encrypt_if_set
              (Notifications.Sms.accountSid (Notifications.sms notifications)) e1 with
      | (Js.Throw err, e2) => (Js.Throw err, e2)
      | (Js.Normal accountSid, e2) =>
          match encrypt_if_set
                  (Notifications.Sms.authToken (Notifications.sms notifications)) e2 with
          | (Js.Throw err, e3) => (Js.Throw err, e3)
          | (Js.Normal authToken, e3) =>
              (Js.Normal
                 (Notifications.with_secrets notifications pass accountSid authToken),
               e3)
          end
      end
  end.

(** [app.get('/api/notifications')] *)
Definition getNotifications (st : Monitor.State) : Response Notifications.t :=
  Json 200
    (safeNotifications
       (Dispatcher.loadNotifications ENCRYPTION_KEY (Monitor.notificationsFile st))).

(** [app.put('/api/notifications')]: the settings are written before the
    clients are initialised again, so they stay written when that
    throws. *)
Definition putNotifications (body : Notifications.t) (e : Vault.Entropy)
    (st : Monitor.State) : Response string * Monitor.State * Vault.Entropy :=
  match saveNotifications body e with
  | (Js.Normal stored, e') =>
      let '(completion, clients) :=
        Dispatcher.initializeNotifications ENCRYPTION_KEY (Content stored)
          (Monitor.clients st) in
      (match completion with
       | Js.Normal _ => Json 200 "Notification settings updated successfully"
       | Js.Throw err =>
           Failure 500 ("Failed to save notification settings: " ++ Js.message err)
       end,
       {| Monitor.servicesFile := Monitor.servicesFile st;
          Monitor.notificationsFile := Content stored;
          Monitor.historyFiles := Monitor.historyFiles st;
          Monitor.serviceStatuses := Monitor.serviceStatuses st;
          Monitor.serviceHistories := Monitor.serviceHistories st;
          Monitor.clients := clients;
          Monitor.dispatched := Monitor.dispatched st;
          Monitor.attempts := Monitor.attempts st |},
       e')
  | (Js.Throw err, e') =>
      (Failure 500 ("Failed to save notification settings: " ++ Js.message err), st, e')
  end.

End WithCipher.

End Routes.

(* ===================================================================== *)
(** ** Concrete inputs *)
(* ===================================================================== *)

Module Examples.

(** An entropy tape that counts 0, 1, 2, ... modulo 256. *)
Definition counting (n : nat) : byte :=
  match Byte.of_N (N.of_nat n mod 256) with
  | Some b => b
  | None => x00
  end.

Definition entropy_at_start : Vault.Entropy :=
  {| Vault.tape := counting; Vault.cursor := 0 |}.

(** [const ENCRYPTION_KEY = crypto.randomBytes(32)] on that tape, and the
    tape left for the IVs. *)
Definition ENCRYPTION_KEY : list byte :=
  fst (Vault.randomBytes 32 entropy_at_start).
Definition entropy : Vault.Entropy :=
  snd (Vault.randomBytes 32 entropy_at_start).

(** A service with the default timeout and expected status. *)
Definition api : ServiceSpec.t :=
  {| ServiceSpec.name := "api";
     ServiceSpec.url := "http://api.local/health";
     ServiceSpec.timeout := None;
     ServiceSpec.expectedStatus := None |}.

(** A service that is expected to answer 404. *)
Definition gone : ServiceSpec.t :=
  {| ServiceSpec.name := "gone";
     ServiceSpec.url := "http://api.local/removed";
     ServiceSpec.timeout := None;
     ServiceSpec.expectedStatus := Some 404%Z |}.

(** A history entry observed at instant [t]. *)
Definition observed (t : Millis) (s : Status) : HistoryEntry.t :=
  {| HistoryEntry.timestamp := Some t;
     HistoryEntry.status := s;
     HistoryEntry.statusCode := Some 200%Z;
     HistoryEntry.responseTime := Some 40%Z;
     HistoryEntry.error := None |}.



(** A clock that is read in the millisecond in which the request
    settles. *)
Definition prompt : Checker.Lag := {| Checker.resumed := 0%Z; Checker.stamped := 0%Z |}.

(** The calendar of a process whose time zone is UTC. *)
Definition utc (now : Millis) : Millis := (now - History.NINETY_DAYS)%Z.

(** A world in which every URL answers 200 after 40 ms and every send is
    delivered. *)
Definition healthy : Monitor.World :=
  {| Monitor.endpoint := fun _ _ => Checker.Responds 200%Z 40%Z;
     Monitor.lag := fun _ _ => prompt;
     Monitor.ninetyDaysAgo := utc;
     Monitor.net := fun _ => Dispatcher.Delivered |}.

(** A world in which no URL ever answers. *)
Definition silent : Monitor.World :=
  {| Monitor.endpoint := fun _ _ => Checker.Hangs;
     Monitor.lag := fun _ _ => prompt;
     Monitor.ninetyDaysAgo := utc;
     Monitor.net := fun _ => Dispatcher.Delivered |}.

Definition no_clients : Dispatcher.Clients :=
  {| Dispatcher.transporter := Dispatcher.Unbound;
     Dispatcher.twilioClient := Dispatcher.Unbound |}.

(** A process that has just started: the given services on disk, no
    notification settings, nothing checked yet. *)
Definition started (services : list ServiceSpec.t) : Monitor.State :=
  {| Monitor.servicesFile := Content services;
     Monitor.notificationsFile := Missing;
     Monitor.historyFiles := ∅;
     Monitor.serviceStatuses := ∅;
     Monitor.serviceHistories := ∅;
     Monitor.clients := no_clients;
     Monitor.dispatched := [];
     Monitor.attempts := [] |}.

(** The result of checking [api] at instant 0 in the [healthy] world. *)
Definition api_up : CheckResult.t :=
  {| CheckResult.name := "api";
     CheckResult.url := "http://api.local/health";
     CheckResult.status := up;
     CheckResult.statusCode := Some 200%Z;
     CheckResult.responseTime := Some 40%Z;
     CheckResult.lastChecked := Some 40%Z;
     CheckResult.error := None |}.

(** A service whose timeout is a full minute. *)
Definition slow : ServiceSpec.t :=
  {| ServiceSpec.name := "slow";
     ServiceSpec.url := "http://slow.local/";
     ServiceSpec.timeout := Some 60000%Z;
     ServiceSpec.expectedStatus := None |}.

(** Service "B", checked once already: its status, its history and its
    history file hold the result of that check. *)
Definition B : ServiceSpec.t :=
  {| ServiceSpec.name := "B";
     ServiceSpec.url := "http://b.local/";
     ServiceSpec.timeout := None;
     ServiceSpec.expectedStatus := None |}.

Definition B_up (at_ : Millis) : CheckResult.t :=
  {| CheckResult.name := "B";
     CheckResult.url := "http://b.local/";
     CheckResult.status := up;
     CheckResult.statusCode := Some 200%Z;
     CheckResult.responseTime := Some 40%Z;
     CheckResult.lastChecked := Some at_;
     CheckResult.error := None |}.

Definition monitoring_B : Monitor.State :=
  {| Monitor.servicesFile := Content [B];
     Monitor.notificationsFile := Missing;
     Monitor.historyFiles := {[ "B" := [Monitor.entry_of (B_up 40%Z)] ]};
     Monitor.serviceStatuses := {[ "B" := B_up 40%Z ]};
     Monitor.serviceHistories := {[ "B" := [Monitor.entry_of (B_up 40%Z)] ]};
     Monitor.clients := no_clients;
     Monitor.dispatched := [];
     Monitor.attempts := [] |}.

(** A process whose tick is due at two minutes while a cycle that settles
    half a minute later is in flight. *)
Definition busy : Scheduler.Process :=
  {| Scheduler.nextTick := 120000%Z;
     Scheduler.running :=
       [{| Scheduler.settlesAt := 150000%Z; Scheduler.outcome := Js.Normal [] |}];
     Scheduler.mon := started [slow] |}.

(** Settings with mail enabled but no SMTP host, user or password, and
    with both webhooks enabled and set. *)
Definition mail_incomplete : Notifications.t :=
  {| Notifications.email :=
       {| Notifications.Email.enabled := true;
          Notifications.Email.smtp := Notifications.Email.smtp
                                        (Notifications.email Notifications.default);
          Notifications.Email.from := "";
          Notifications.Email.to := "ops@example.org" |};
     Notifications.teams :=
       {| Notifications.Teams.enabled := true;
          Notifications.Teams.webhookUrl := "https://chat.example.org/hook" |};
     Notifications.sms := Notifications.sms Notifications.default;
     Notifications.iphone :=
       {| Notifications.Iphone.enabled := true;
          Notifications.Iphone.webhookUrl := "https://device.example.org/hook";
          Notifications.Iphone.description := "" |} |}.

(** The process started on those settings, before its first check. *)
Definition started_mail_incomplete : Monitor.State :=
  {| Monitor.servicesFile := Content [api];
     Monitor.notificationsFile := Content mail_incomplete;
     Monitor.historyFiles := ∅;
     Monitor.serviceStatuses := ∅;
     Monitor.serviceHistories := ∅;
     Monitor.clients :=
       snd (Dispatcher.initializeNotifications (C := Vault.hex_cipher) ENCRYPTION_KEY
              (Content mail_incomplete) no_clients);
     Monitor.dispatched := [];
     Monitor.attempts := [] |}.

(** Settings whose stored mail password is not vault ciphertext. *)
Definition stored_plain_password : Notifications.t :=
  Notifications.with_secrets mail_incomplete "ab:cd" "" "".

End Examples.

(* ===================================================================== *)
(** ** Further concrete inputs *)
(* ===================================================================== *)

Module Scenarios.

(** Complete settings: mail and SMS enabled with all their secrets set. *)
Definition complete : Notifications.t :=
  {| Notifications.email :=
       {| Notifications.Email.enabled := true;
          Notifications.Email.smtp :=
            {| Notifications.Smtp.host := "smtp.example.org";
               Notifications.Smtp.port := 587%Z;
               Notifications.Smtp.secure := false;
               Notifications.Smtp.requireTLS := true;
               Notifications.Smtp.auth :=
                 {| Notifications.Auth.user := "monitor";
                    Notifications.Auth.pass := "hunter2:x" |} |};
          Notifications.Email.from := "monitor@example.org";
          Notifications.Email.to := "ops@example.org" |};
     Notifications.teams :=
       {| Notifications.Teams.enabled := true;
          Notifications.Teams.webhookUrl := "https://chat.example.org/hook" |};
     Notifications.sms :=
       {| Notifications.Sms.enabled := true;
          Notifications.Sms.accountSid := "AC0123";
          Notifications.Sms.authToken := "token";
          Notifications.Sms.from := "+100";
          Notifications.Sms.to := "+200" |};
     Notifications.iphone :=
       {| Notifications.Iphone.enabled := false;
          Notifications.Iphone.webhookUrl := "";
          Notifications.Iphone.description := "" |} |}.

(** The same settings with other secrets. *)
Definition complete_other_secrets : Notifications.t :=
  Notifications.with_secrets complete "correct horse" "AC9999" "other".

(** What [saveNotifications] writes for [complete]. *)
Definition stored_complete : Notifications.t :=
  match fst (Routes.saveNotifications (C := Vault.hex_cipher) Examples.ENCRYPTION_KEY
               complete Examples.entropy) with
  | Js.Normal stored => stored
  | Js.Throw _ => Notifications.default
  end.

(** The same settings with an SMS account id that the SMS library
    refuses. *)
Definition wrong_sid : Notifications.t :=
  Notifications.with_secrets complete "hunter2:x" "XX0123" "token".

(** A service whose timeout is negative. *)
Definition impatient : ServiceSpec.t :=
  {| ServiceSpec.name := "impatient";
     ServiceSpec.url := "http://impatient.local/";
     ServiceSpec.timeout := Some (-5)%Z;
     ServiceSpec.expectedStatus := None |}.

(** A service whose timeout is 2^31 ms. *)
Definition unlimited : ServiceSpec.t :=
  {| ServiceSpec.name := "unlimited";
     ServiceSpec.url := "http://unlimited.local/";
     ServiceSpec.timeout := Some 2147483648%Z;
     ServiceSpec.expectedStatus := None |}.

(** A service whose name holds a path separator. *)
Definition nested : ServiceSpec.t :=
  {| ServiceSpec.name := "a/b";
     ServiceSpec.url := "http://nested.local/";
     ServiceSpec.timeout := None;
     ServiceSpec.expectedStatus := None |}.

(** A service named like a member of [Object.prototype]. *)
Definition inherited : ServiceSpec.t :=
  {| ServiceSpec.name := "constructor";
     ServiceSpec.url := "http://inherited.local/";
     ServiceSpec.timeout := None;
     ServiceSpec.expectedStatus := None |}.

(** A result that finds service "B" down. *)
Definition B_down (at_ : Millis) : CheckResult.t :=
  {| CheckResult.name := "B";
     CheckResult.url := "http://b.local/";
     CheckResult.status := down;
     CheckResult.statusCode := Some 503%Z;
     CheckResult.responseTime := Some 40%Z;
     CheckResult.lastChecked := Some at_;
     CheckResult.error := Some "Request failed with status code 503" |}.

(** The process started on the service named "constructor", after its
    histories were loaded and before its first probe. *)
Definition loaded_inherited : Monitor.State :=
  {| Monitor.servicesFile := Content [inherited];
     Monitor.notificationsFile := Missing;
     Monitor.historyFiles := ∅;
     Monitor.serviceStatuses := ∅;
     Monitor.serviceHistories := {[ "constructor" := [] ]};
     Monitor.clients := Examples.no_clients;
     Monitor.dispatched := [];
     Monitor.attempts := [] |}.

End Scenarios.
(* ===================================================================== *)
(** * Properties *)
(* ===================================================================== *)

(** ** Strings and hex *)

Lemma split_nonempty sep s : Js.split sep s <> [].
Proof.
  destruct s as [|a s]; simpl; [discriminate|].
  destruct (Ascii.eqb a sep); [discriminate|].
  destruct (Js.split sep s); discriminate.
Qed.

(** Splitting at the first separator: the part before it has none. *)
Lemma split_app_sep sep s1 s2 :
  Js.includes sep s1 = false ->
  Js.split sep (s1 ++ String sep s2) = s1 :: Js.split sep s2.
Proof.
  induction s1 as [|a s1 IH]; simpl; intros H.
  - now rewrite Ascii.eqb_refl.
  - apply orb_false_iff in H as [Ha Hs]. rewrite Ha, (IH Hs). reflexivity.
Qed.

Lemma join_split sep s :
  Js.join (String sep EmptyString) (Js.split sep s) = s.
Proof.
  induction s as [|a s IH]; simpl; [reflexivity|].
  destruct (Ascii.eqb_spec a sep) as [->|Hne].
  - pose proof (split_nonempty sep s) as Hn.
    simpl. destruct (Js.split sep s) as [|p ps]; [contradiction|].
    now rewrite IH.
  - pose proof (split_nonempty sep s) as Hn.
    destruct (Js.split sep s) as [|p ps]; [contradiction|].
    simpl in *. destruct ps; simpl in *; now rewrite <- IH.
Qed.

Lemma includes_app_sep sep s1 s2 : Js.includes sep (s1 ++ String sep s2) = true.
Proof.
  induction s1 as [|a s1 IH]; simpl.
  - now rewrite Ascii.eqb_refl.
  - rewrite IH. apply orb_true_r.
Qed.

(** The two digits of a byte decode to the byte, and neither is the
    delimiter. *)
Lemma hex_of_byte (b : byte) :
  let n := Byte.to_N b in
  exists h l,
    Buffer.hex_value (Buffer.hex_digit (n / 16)) = Some h /\
    Buffer.hex_value (Buffer.hex_digit (n mod 16)) = Some l /\
    Buffer.byte_of_nibbles h l = b /\
    Ascii.eqb (Buffer.hex_digit (n / 16)) Vault.delimiter = false /\
    Ascii.eqb (Buffer.hex_digit (n mod 16)) Vault.delimiter = false.
Proof.
  destruct b; vm_compute; eexists _, _; repeat split; reflexivity.
Qed.

Lemma from_hex_to_hex (buf : list byte) : Buffer.from_hex (Buffer.to_hex buf) = buf.
Proof.
  induction buf as [|b buf IH]; [reflexivity|].
  destruct (hex_of_byte b) as (h & l & Hh & Hl & Hb & _).
  cbn [Buffer.to_hex Buffer.from_hex]. cbv zeta in Hh, Hl.
  now rewrite Hh, Hl, Hb, IH.
Qed.

Lemma to_hex_no_delimiter (buf : list byte) :
  Js.includes Vault.delimiter (Buffer.to_hex buf) = false.
Proof.
  induction buf as [|b buf IH]; [reflexivity|].
  destruct (hex_of_byte b) as (h & l & _ & _ & _ & H1 & H2).
  cbn [Buffer.to_hex Js.includes]. cbv zeta in H1, H2.
  now rewrite H1, H2, IH.
Qed.

Lemma randomBytes_length n e : length (fst (Vault.randomBytes n e)) = n.
Proof. unfold Vault.randomBytes. simpl. now rewrite length_map, length_seq. Qed.

Lemma hex_cipher_lawful : Vault.Lawful Vault.hex_cipher.
Proof.
  intros key iv text _ _. simpl.
  rewrite from_hex_to_hex, String.eqb_refl.
  now rewrite string_of_list_byte_of_string.
Qed.

(** ** Credential vault *)

Lemma truthy_true_iff s : Js.truthy s = true <-> s <> "".
Proof. destruct s; simpl; split; congruence. Qed.

Lemma createCipheriv_ok key iv :
  length key = Vault.KEY_LENGTH -> length iv = Vault.IV_LENGTH ->
  Vault.createCipheriv key iv = Js.Normal tt.
Proof.
  intros Hk Hi. unfold Vault.createCipheriv. now rewrite Hk, Hi, !Nat.eqb_refl.
Qed.

Lemma createDecipheriv_bad_iv key iv :
  length iv <> Vault.IV_LENGTH ->
  Vault.createDecipheriv key iv = Js.Throw Js.InvalidIV.
Proof.
  intros Hi. unfold Vault.createDecipheriv, Vault.createCipheriv.
  apply Nat.eqb_neq in Hi. now rewrite Hi.
Qed.

(** What [encrypt] returns for a non-empty text: the hex of the fresh IV,
    the delimiter, and the ciphertext under that IV. *)
Lemma encrypt_nonempty `{C : Vault.Aes256Cbc} key text e :
  text <> "" -> length key = Vault.KEY_LENGTH ->
  let iv := fst (Vault.randomBytes Vault.IV_LENGTH e) in
  Vault.encrypt key text e =
    (Js.Normal (Buffer.to_hex iv ++ String Vault.delimiter (Vault.cipher_hex key iv text)),
     snd (Vault.randomBytes Vault.IV_LENGTH e)).
Proof.
  intros Hne Hk iv. unfold Vault.encrypt.
  apply truthy_true_iff in Hne. rewrite Hne. cbn [negb].
  pose proof (randomBytes_length Vault.IV_LENGTH e) as Hlen.
  destruct (Vault.randomBytes Vault.IV_LENGTH e) as [iv' e'] eqn:Hr.
  subst iv. cbn [fst snd] in *.
  now rewrite (createCipheriv_ok _ _ Hk Hlen).
Qed.

(** What [decrypt] does with a text that holds the delimiter, in terms of
    the text before and after the first delimiter. *)
Lemma decrypt_delimited `{C : Vault.Aes256Cbc} key first rest :
  Js.includes Vault.delimiter first = false ->
  Vault.decrypt key (first ++ String Vault.delimiter rest) =
    Js.bind (Vault.createDecipheriv key (Buffer.from_hex first))
      (fun _ => Vault.decipher_utf8 key (Buffer.from_hex first) rest).
Proof.
  intros Hf. unfold Vault.decrypt.
  assert (Ht : Js.truthy (first ++ String Vault.delimiter rest) = true)
    by (destruct first; reflexivity).
  rewrite Ht, includes_app_sep, (split_app_sep _ _ _ Hf).
  cbn [negb orb Js.shift Js.bind]. now rewrite join_split.
Qed.

(** C6. Vault round-trip and idempotence: [encrypt] of the empty string
    returns it unchanged; [decrypt] of a delimiter-free string returns
    it unchanged; and, for a cipher that deciphers what it enciphers
    and a 256-bit key, [decrypt (encrypt x) = x] for every non-empty
    string [x] without the delimiter, whatever IV is drawn. *)
Theorem vault_round_trip `{C : Vault.Aes256Cbc} (key : list byte) :
  (forall e, Vault.encrypt key "" e = (Js.Normal "", e)) /\
  (forall text, Js.includes Vault.delimiter text = false ->
     Vault.decrypt key text = Js.Normal text) /\
  (Vault.Lawful C -> length key = Vault.KEY_LENGTH ->
   forall x e, x <> "" -> Js.includes Vault.delimiter x = false ->
     exists c, fst (Vault.encrypt key x e) = Js.Normal c /\
               Vault.decrypt key c = Js.Normal x).
Proof.
  split; [reflexivity|]. split.
  - intros text Hd. unfold Vault.decrypt. rewrite Hd. cbn [negb].
    now rewrite orb_true_r.
  - intros Hlaw Hk x e Hx _.
    rewrite (encrypt_nonempty key x e Hx Hk). cbn [fst].
    eexists; split; [reflexivity|].
    rewrite decrypt_delimited by apply to_hex_no_delimiter.
    rewrite from_hex_to_hex. unfold Vault.createDecipheriv.
    rewrite (createCipheriv_ok _ _ Hk (randomBytes_length _ e)).
    cbn [Js.bind]. apply Hlaw; [exact Hk | apply randomBytes_length].
Qed.

(** A concrete round trip: the key and the IV are drawn from the counting
    tape and the text is enciphered with [hex_cipher]. *)
Lemma vault_round_trip_witness :
  exists c,
    fst (Vault.encrypt (C := Vault.hex_cipher) Examples.ENCRYPTION_KEY "hunter2"
           Examples.entropy) = Js.Normal c /\
    Vault.decrypt (C := Vault.hex_cipher) Examples.ENCRYPTION_KEY c = Js.Normal "hunter2".
Proof.
  apply (proj2 (proj2 (vault_round_trip (C := Vault.hex_cipher) Examples.ENCRYPTION_KEY))
           hex_cipher_lawful eq_refl "hunter2" Examples.entropy);
    [discriminate | reflexivity].
Defined.

(** ** Lookups in plain objects *)

Lemma get_own {V} (obj : gmap string V) key v :
  obj !! key = Some v -> Js.get obj key = Js.Own v.
Proof. unfold Js.get. now intros ->. Qed.

Lemma get_insert_eq {V} (obj : gmap string V) key v :
  Js.get (<[key := v]> obj) key = Js.Own v.
Proof. apply get_own, lookup_insert_eq. Qed.

Lemma get_empty {V} key :
  Js.get (∅ : gmap string V) key =
    match Js.Object_prototype key with
    | Some m => Js.Inherited m
    | None => Js.Absent
    end.
Proof. unfold Js.get. now rewrite !lookup_empty. Qed.

(** A lookup that finds an own property or nothing finds what the map
    of own properties holds. *)
Lemma own_or_absent_get {V} (obj : gmap string V) key :
  Js.own_or_absent obj key = true ->
  Js.get obj key = match obj !! key with
                   | Some v => Js.Own v
                   | None => Js.Absent
                   end.
Proof.
  unfold Js.own_or_absent, Js.get.
  destruct (obj !! key); [reflexivity|].
  destruct (obj !! "__proto__"); [discriminate|].
  destruct (Js.Object_prototype key); [discriminate|reflexivity].
Qed.

Lemma get_absent_lookup {V} (obj : gmap string V) key :
  Js.get obj key = Js.Absent -> obj !! key = None.
Proof.
  unfold Js.get. destruct (obj !! key); [discriminate|reflexivity].
Qed.

Lemma get_absent_own_or_absent {V} (obj : gmap string V) key :
  Js.get obj key = Js.Absent -> Js.own_or_absent obj key = true.
Proof. unfold Js.own_or_absent. now intros ->. Qed.

Lemma delete_property_lookup {V} (obj : gmap string V) key other :
  other <> key -> Js.delete_property key obj !! other = obj !! other.
Proof.
  intros Hne. unfold Js.delete_property.
  destruct (String.eqb key "__proto__"); [reflexivity|].
  apply lookup_delete_ne. congruence.
Qed.

(** ** Paths of the history files *)

Lemma includes_app c s1 s2 :
  Js.includes c (s1 ++ s2) = Js.includes c s1 || Js.includes c s2.
Proof.
  induction s1 as [|a s1 IH]; [reflexivity|].
  simpl. rewrite IH. apply orb_assoc.
Qed.

Lemma split_without sep s : Js.includes sep s = false -> Js.split sep s = [s].
Proof.
  induction s as [|a s IH]; [reflexivity|]. cbn [Js.includes Js.split].
  intros H. apply orb_false_iff in H as [Ha Hs]. rewrite Ha, (IH Hs). reflexivity.
Qed.

Lemma length_append s1 s2 :
  String.length (s1 ++ s2) = String.length s1 + String.length s2.
Proof. induction s1 as [|a s1 IH]; simpl; [reflexivity|]. now rewrite IH. Qed.

Lemma substring_prefix s1 s2 :
  String.substring 0 (String.length s1) (s1 ++ s2) = s1.
Proof. induction s1 as [|a s1 IH]; simpl; [now destruct s2|]. now rewrite IH. Qed.

Lemma stem_json name : Fs.stem (name ++ ".json") = name.
Proof.
  unfold Fs.stem. rewrite length_append. cbn [String.length].
  replace (String.length name + 5 - 5) with (String.length name) by lia.
  apply substring_prefix.
Qed.

(** A service name that is a file name leads to the history file of
    that name. *)
Lemma plain_historyFile name :
  Fs.plain name = true -> Fs.historyFile name = Js.Normal (Fs.HistoryFile name).
Proof.
  unfold Fs.plain, Fs.historyFile, Fs.join.
  intros H. apply andb_true_iff in H as [H Hlen]. apply andb_true_iff in H as [Hsep Hnul].
  apply negb_true_iff in Hsep, Hnul. apply Nat.leb_le in Hlen.
  cbv zeta. rewrite includes_app, Hnul. cbn [Js.includes orb].
  assert (Hnul' : Js.includes Fs.NUL ".json" = false) by reflexivity.
  rewrite split_without by (rewrite includes_app, Hsep; reflexivity).
  assert (Hlength : String.length (name ++ ".json") = String.length name + 5)
    by (rewrite length_append; reflexivity).
  assert (Hne : forall short, String.length short < 5 ->
                  String.eqb (name ++ ".json") short = false).
  { intros short Hshort. apply String.eqb_neq. intros Heq.
    rewrite Heq in Hlength. lia. }
  cbn [Fs.resolve]. rewrite !Hne by (cbn; lia). cbn [orb].
  rewrite Hlength.
  assert (Hfits : (Fs.NAME_MAX <? String.length name + 5)%nat = false)
    by (apply Nat.ltb_ge; exact Hlen).
  rewrite Hfits. unfold Fs.locate. now rewrite stem_json.
Qed.

(** ** Checker *)

(** When the request settles, so does the check, and the [catch] block
    turns every rejection into a result. *)
Lemma checkService_settled service ep lag start response elapsed :
  Checker.axios_get (Js.or_number (ServiceSpec.timeout service) 5000) ep
    = Js.Settled (response, elapsed) ->
  let responseTime := (elapsed + Checker.resumed lag)%Z in
  let now := (start + responseTime + Checker.stamped lag)%Z in
  Checker.checkService service ep lag start =
    Js.Settled
      (Js.Normal
         match response with
         | Js.Normal status => Checker.on_response service status responseTime now
         | Js.Throw error => Checker.on_error service error responseTime now
         end,
       now).
Proof.
  intros Hget. unfold Checker.checkService. rewrite Hget.
  destruct response; reflexivity.
Qed.

(** The request settles unless the timeout is negative and the URL is
    one the client requests. *)
Lemma axios_get_settles timeout ep :
  (0 <= timeout)%Z \/ (exists msg, ep = Checker.Unrequestable msg) ->
  exists response elapsed, Checker.axios_get timeout ep = Js.Settled (response, elapsed).
Proof.
  intros Hok. unfold Checker.axios_get.
  destruct ep as [code latency|msg latency| |msg]; try (eexists _, _; reflexivity);
    (destruct Hok as [Hpos|(msg' & Hep)]; [|discriminate Hep]);
    apply Z.ltb_ge in Hpos; rewrite Hpos;
    try destruct (Checker.timer timeout <? latency)%Z; eexists _, _; reflexivity.
Qed.

Lemma checkService_returns service ep lag start :
  (0 <= Js.or_number (ServiceSpec.timeout service) 5000)%Z
  \/ (exists msg, ep = Checker.Unrequestable msg) ->
  exists r finished,
    Checker.checkService service ep lag start = Js.Settled (Js.Normal r, finished) /\
    CheckResult.name r = ServiceSpec.name service.
Proof.
  intros Hok. destruct (axios_get_settles _ ep Hok) as (response & elapsed & Hget).
  rewrite (checkService_settled _ _ lag start _ _ Hget).
  eexists _, _. split; [reflexivity|]. destruct response; reflexivity.
Qed.

(** A result of the checker repeats the service's name and is up or down. *)
Lemma checkService_result service ep lag start c finished :
  Checker.checkService service ep lag start = Js.Settled (c, finished) ->
  exists r, c = Js.Normal r /\
    CheckResult.name r = ServiceSpec.name service /\
    (CheckResult.status r = up \/ CheckResult.status r = down).
Proof.
  unfold Checker.checkService.
  destruct (Checker.axios_get _ ep) as [[response elapsed]|uncaught]; [|discriminate].
  intros [= <- <-]. destruct response as [code|e]; cbn; eexists; (split; [reflexivity|]);
    cbn; (split; [reflexivity|]).
  - destruct (Z.eqb code (Checker.expected service)); auto.
  - auto.
Qed.

(** C1, as stated, fails on a response outside 200..299: the request is
    made with the client's default validation, which rejects it, so the
    result carries the client's message and not the "Expected status"
    text. *)
Lemma checkService_response_500_counterexample :
  exists r finished,
    Checker.checkService Examples.api (Checker.Responds 500%Z 120%Z) Examples.prompt 0%Z
      = Js.Settled (Js.Normal r, finished) /\
    CheckResult.status r = down /\
    CheckResult.statusCode r = Some 500%Z /\
    CheckResult.error r = Some "Request failed with status code 500" /\
    CheckResult.error r <> Some "Expected status 200, got 500".
Proof. eexists _, _. vm_compute. repeat split. discriminate. Qed.

(** A service that expects 404 and is answered 404 is reported down: the
    rejected request never reaches the comparison with the expected code. *)
Example checkService_expected_404 :
  exists r finished,
    Checker.checkService Examples.gone (Checker.Responds 404%Z 30%Z) Examples.prompt 0%Z
      = Js.Settled (Js.Normal r, finished) /\
    CheckResult.status r = down /\
    CheckResult.statusCode r = Some 404%Z /\
    CheckResult.error r = Some "Request failed with status code 404".
Proof. eexists _, _. vm_compute. repeat split. Qed.

(** A timeout that does not fit a timer makes the timer fire after 1 ms:
    a response that takes 40 ms is not waited for. *)
Example checkService_timeout_overflow :
  exists r finished,
    Checker.checkService Scenarios.unlimited (Checker.Responds 200%Z 40%Z)
      Examples.prompt 0%Z = Js.Settled (Js.Normal r, finished) /\
    CheckResult.status r = down /\
    CheckResult.statusCode r = None /\
    CheckResult.error r = Some "timeout of 2147483648ms exceeded".
Proof. eexists _, _. vm_compute. repeat split. Qed.

(** C1 (amended). For every service whose timeout is not negative and
    whose request is answered before its timer fires (the timer runs for
    the timeout, 5000 ms when none is set, and for 1 ms when the timeout
    exceeds 2147483647 ms): when the response resolves the request (a
    code in 200..299), the result is up if and only if the code equals
    the expected code (default 200), with no error when up, and a code
    that differs gives down with the error text "Expected status
    <expected>, got <actual>"; a response outside 200..299 that differs
    from the expected code gives down with the response's (non-zero)
    code and the client's message "Request failed with status code
    <actual>". *)
Theorem checkService_on_response service code latency lag start :
  let timeout := Js.or_number (ServiceSpec.timeout service) 5000 in
  (0 <= timeout)%Z ->
  (latency <= Checker.timer timeout)%Z ->
  exists r finished,
    Checker.checkService service (Checker.Responds code latency) lag start
      = Js.Settled (Js.Normal r, finished) /\
    (Checker.validateStatus code = true ->
       (CheckResult.status r = up <-> code = Checker.expected service) /\
       (CheckResult.status r = up -> CheckResult.error r = None) /\
       CheckResult.statusCode r = Some code /\
       (code <> Checker.expected service ->
          CheckResult.status r = down /\
          CheckResult.error r =
            Some ("Expected status " ++ Js.number_to_string (Checker.expected service)
                  ++ ", got " ++ Js.number_to_string code))) /\
    (Checker.validateStatus code = false -> code <> Checker.expected service ->
       CheckResult.status r = down /\
       (code <> 0%Z -> CheckResult.statusCode r = Some code) /\
       CheckResult.error r =
         Some ("Request failed with status code " ++ Js.number_to_string code)).
Proof.
  intros timeout Hpos Hlat.
  assert (Hget : Checker.axios_get timeout (Checker.Responds code latency)
                 = Js.Settled (Checker.settle code, latency)).
  { unfold Checker.axios_get. apply Z.ltb_ge in Hpos, Hlat. now rewrite Hpos, Hlat. }
  rewrite (checkService_settled _ _ lag start _ _ Hget). cbn zeta.
  unfold Checker.settle.
  destruct (Checker.validateStatus code) eqn:Hv;
    (eexists _, _; split; [reflexivity|]); (split; [|]); try discriminate; intros _.
  - cbn. destruct (Z.eqb_spec code (Checker.expected service)) as [He|He];
      repeat split; congruence.
  - intros _. cbn. repeat split. intros Hz.
    destruct (Z.eqb_spec code 0); [contradiction|reflexivity].
Qed.

Lemma checkService_on_response_witness :
  exists r finished,
    Checker.checkService Examples.api (Checker.Responds 204%Z 35%Z) Examples.prompt 1000%Z
      = Js.Settled (Js.Normal r, finished) /\
    CheckResult.status r = down /\
    CheckResult.error r = Some "Expected status 200, got 204".
Proof.
  destruct (checkService_on_response Examples.api 204%Z 35%Z Examples.prompt 1000%Z
              ltac:(vm_compute; discriminate) ltac:(vm_compute; discriminate))
    as (r & finished & Hr & H2xx & _).
  exists r, finished. split; [exact Hr|].
  destruct (H2xx eq_refl) as (_ & _ & _ & Hdown).
  apply Hdown. vm_compute. discriminate.
Defined.

(** C7, as stated, fails for a service whose timeout is negative: the
    timer of the request's socket refuses the duration in an event
    callback, the request never settles, and the checker returns
    nothing to its caller, whether the endpoint never answers or
    answers after 40 ms, later than the timeout. *)
Lemma checkService_negative_timeout_counterexample :
  ServiceSpec.timeout Scenarios.impatient = Some (-5)%Z /\
  Checker.checkService Scenarios.impatient Checker.Hangs Examples.prompt 0%Z
  = Js.Pending Js.RangeError /\
  Checker.checkService Scenarios.impatient (Checker.Responds 200%Z 40%Z)
    Examples.prompt 0%Z
  = Js.Pending Js.RangeError.
Proof. repeat split. Qed.

(** C7 (amended). For every service whose timeout is not negative, the
    checker returns a result whatever the endpoint does, and never
    raises. The result built from a caught failure is down, its error is
    the failure's message, and its status code is absent unless the
    failure carries a response, whose (non-zero) code is then used. A
    transport failure before the request's timer fires gives down with
    the failure's message and no status code, and so does a URL that
    the client refuses to request; an endpoint that takes longer than
    the timer, or never answers, gives down with the timeout message
    and no status code. The timer runs for the timeout, or for 1 ms
    when the timeout exceeds 2147483647 ms. *)
Theorem checkService_on_failure service lag start :
  let timeout := Js.or_number (ServiceSpec.timeout service) 5000 in
  (0 <= timeout)%Z ->
  (forall ep, exists r finished,
     Checker.checkService service ep lag start = Js.Settled (Js.Normal r, finished)) /\
  (forall error rt now,
     let r := Checker.on_error service error rt now in
     CheckResult.status r = down /\
     CheckResult.error r = Some (Js.message error) /\
     (Js.response_status error = None -> CheckResult.statusCode r = None) /\
     (forall code, Js.response_status error = Some code -> code <> 0%Z ->
        CheckResult.statusCode r = Some code)) /\
  (forall ep msg,
     (ep = Checker.Unrequestable msg \/
      exists latency, ep = Checker.Fails msg latency /\
                      (latency <= Checker.timer timeout)%Z) ->
     exists r finished,
       Checker.checkService service ep lag start = Js.Settled (Js.Normal r, finished) /\
       CheckResult.status r = down /\
       CheckResult.statusCode r = None /\
       CheckResult.error r = Some msg) /\
  (forall ep,
     (ep = Checker.Hangs \/
      (exists code latency, ep = Checker.Responds code latency /\
                            (Checker.timer timeout < latency)%Z) \/
      (exists msg latency, ep = Checker.Fails msg latency /\
                           (Checker.timer timeout < latency)%Z)) ->
     exists r finished,
       Checker.checkService service ep lag start = Js.Settled (Js.Normal r, finished) /\
       CheckResult.status r = down /\
       CheckResult.statusCode r = None /\
       CheckResult.error r = Some (Js.message (Checker.timeoutError timeout))).
Proof.
  intros timeout Hpos.
  split; [intros ep; destruct (checkService_returns service ep lag start (or_introl Hpos))
            as (r & finished & Hr & _); eauto|].
  assert (Hneg : (timeout <? 0)%Z = false) by (apply Z.ltb_ge; exact Hpos).
  split; [|split].
  - intros error rt now r. subst r. cbn. repeat split.
    + intros ->. reflexivity.
    + intros code -> Hz. cbn. destruct (Z.eqb_spec code 0); [contradiction|reflexivity].
  - intros ep msg Hep.
    assert (Hget : exists elapsed,
              Checker.axios_get timeout ep
              = Js.Settled (Js.Throw (Js.RequestFailed msg None), elapsed)).
    { destruct Hep as [->|(latency & -> & Hlat)]; unfold Checker.axios_get.
      - eexists. reflexivity.
      - apply Z.ltb_ge in Hlat. rewrite Hneg, Hlat. eexists. reflexivity. }
    destruct Hget as (elapsed & Hget).
    rewrite (checkService_settled _ _ lag start _ _ Hget).
    eexists _, _. split; [reflexivity|]. cbn. repeat split.
  - intros ep Hep.
    assert (Hget : Checker.axios_get timeout ep
                   = Js.Settled (Js.Throw (Checker.timeoutError timeout),
                                 Checker.timer timeout)).
    { unfold Checker.axios_get. rewrite Hneg.
      destruct Hep as [->|[(code & latency & -> & Hlt)|(msg & latency & -> & Hlt)]];
        try (apply Z.ltb_lt in Hlt; rewrite Hlt); reflexivity. }
    rewrite (checkService_settled _ _ lag start _ _ Hget).
    eexists _, _. split; [reflexivity|]. cbn. repeat split.
Qed.

Lemma checkService_on_failure_witness :
  exists r finished,
    Checker.checkService Examples.api (Checker.Responds 200%Z 9000%Z) Examples.prompt 0%Z
      = Js.Settled (Js.Normal r, finished) /\
    CheckResult.status r = down /\
    CheckResult.statusCode r = None /\
    CheckResult.error r = Some "timeout of 5000ms exceeded".
Proof.
  apply (proj2 (proj2 (proj2 (checkService_on_failure Examples.api Examples.prompt 0%Z
                                ltac:(vm_compute; discriminate))))
           (Checker.Responds 200%Z 9000%Z)).
  right; left. exists 200%Z, 9000%Z. split; [reflexivity | vm_compute; reflexivity].
Defined.

(** ** History persister *)

Lemma isAfter_spec timestamp cutoff :
  History.isAfter timestamp cutoff = true <->
  exists t, timestamp = Some t /\ (cutoff < t)%Z.
Proof.
  destruct timestamp as [t|]; simpl.
  - rewrite Z.ltb_lt. split; [eauto|]. now intros (t' & [= <-] & H).
  - split; [discriminate|]. now intros (t' & [=] & _).
Qed.


Lemma trim_In now history e :
  In e (History.trim now history) <->
  In e history /\
  exists t, HistoryEntry.timestamp e = Some t /\ (now - History.NINETY_DAYS < t)%Z.
Proof. unfold History.trim. now rewrite filter_In, isAfter_spec. Qed.

(** What a save does, by where the service's name leads. *)
Lemma saveServiceHistory_written ninetyDaysAgo serviceName stem history files :
  Fs.historyFile serviceName = Js.Normal (Fs.HistoryFile stem) ->
  History.saveServiceHistory ninetyDaysAgo serviceName history files =
    (Js.Normal (History.newerThan ninetyDaysAgo history),
     <[stem := History.newerThan ninetyDaysAgo history]> files).
Proof. intros Hfile. unfold History.saveServiceHistory. now rewrite Hfile. Qed.

Lemma saveServiceHistory_throws ninetyDaysAgo serviceName history files e files' :
  History.saveServiceHistory ninetyDaysAgo serviceName history files = (Js.Throw e, files') ->
  files' = files /\ forall stem, Fs.historyFile serviceName <> Js.Normal (Fs.HistoryFile stem).
Proof.
  unfold History.saveServiceHistory.
  destruct (Fs.historyFile serviceName) as [[stem|file| |]|e']; intros [= <- <-];
    (split; [reflexivity|]); intros stem'; discriminate.
Qed.




(** ** Transition detector *)

Lemma Status_eqb_eq a b : Status_eqb a b = true <-> a = b.
Proof. destruct a, b; simpl; split; congruence. Qed.

Lemma Status_eqb_neq a b : Status_eqb a b = false <-> a <> b.
Proof. destruct a, b; simpl; split; congruence. Qed.

(** The dispatcher does nothing when the status did not change. *)
Lemma sendNotifications_unchanged `{C : Vault.Aes256Cbc} key file clients net service log :
  Dispatcher.sendNotifications key file clients net service
    (CheckResult.status service) log = (Js.Normal tt, log).
Proof.
  unfold Dispatcher.sendNotifications, Dispatcher.dispatch.
  now rewrite (proj2 (Status_eqb_eq _ _) eq_refl).
Qed.

Lemma notify_keeps_storage `{C : Vault.Aes256Cbc} key w r previous st :
  let st' := snd (Monitor.notify key w r previous st) in
  Monitor.historyFiles st' = Monitor.historyFiles st /\
  Monitor.serviceHistories st' = Monitor.serviceHistories st /\
  Monitor.serviceStatuses st' = Monitor.serviceStatuses st /\
  Monitor.servicesFile st' = Monitor.servicesFile st /\
  Monitor.notificationsFile st' = Monitor.notificationsFile st /\
  Monitor.clients st' = Monitor.clients st /\
  Monitor.dispatched st' = (Monitor.dispatched st ++ [(r, previous)])%list.
Proof.
  cbn zeta. unfold Monitor.notify.
  destruct (Dispatcher.sendNotifications _ _ _ _ _ _ _). cbn. repeat split.
Qed.

(** One iteration of the update loop for a result whose name leads to a
    history file and is looked up among the own properties: the history
    is saved, the status stored, and the dispatcher called when the
    status changed. *)
Lemma processResult_saved `{C : Vault.Aes256Cbc} key w now r st stem :
  let name := CheckResult.name r in
  Fs.historyFile name = Js.Normal (Fs.HistoryFile stem) ->
  Js.own_or_absent (Monitor.serviceStatuses st) name = true ->
  Js.own_or_absent (Monitor.serviceHistories st) name = true ->
  let previous := match Monitor.serviceStatuses st !! name with
                  | Some previousEntry => CheckResult.status previousEntry
                  | None => unknown
                  end in
  let history := match Monitor.serviceHistories st !! name with
                 | Some history => history
                 | None => []
                 end in
  let trimmed :=
    History.newerThan (Monitor.ninetyDaysAgo w now) (history ++ [Monitor.entry_of r]) in
  let st' :=
    {| Monitor.servicesFile := Monitor.servicesFile st;
       Monitor.notificationsFile := Monitor.notificationsFile st;
       Monitor.historyFiles := <[stem := trimmed]> (Monitor.historyFiles st);
       Monitor.serviceStatuses := <[name := r]> (Monitor.serviceStatuses st);
       Monitor.serviceHistories := <[name := trimmed]> (Monitor.serviceHistories st);
       Monitor.clients := Monitor.clients st;
       Monitor.dispatched := Monitor.dispatched st;
       Monitor.attempts := Monitor.attempts st |} in
  Monitor.previousStatus st name = Js.Normal previous /\
  Monitor.processResult key w now r st =
    if negb (Status_eqb previous (CheckResult.status r))
    then Monitor.notify key w r previous st'
    else (Js.Normal tt, st').
Proof.
  intros name Hfile Hstatus Hhistory. cbn zeta.
  unfold Monitor.processResult, Monitor.previousStatus, Monitor.historyToPush.
  fold name.
  rewrite (own_or_absent_get _ _ Hstatus), (own_or_absent_get _ _ Hhistory).
  destruct (Monitor.serviceStatuses st !! name) as [previousEntry|];
    (split; [reflexivity|]);
    destruct (Monitor.serviceHistories st !! name) as [history|];
    rewrite (saveServiceHistory_written _ _ _ _ _ Hfile); reflexivity.
Qed.

(** The calls of the dispatcher made by that iteration. *)
Lemma processResult_dispatched `{C : Vault.Aes256Cbc} key w now r st stem :
  let name := CheckResult.name r in
  Fs.historyFile name = Js.Normal (Fs.HistoryFile stem) ->
  Js.own_or_absent (Monitor.serviceStatuses st) name = true ->
  Js.own_or_absent (Monitor.serviceHistories st) name = true ->
  let previous := match Monitor.serviceStatuses st !! name with
                  | Some previousEntry => CheckResult.status previousEntry
                  | None => unknown
                  end in
  let st' := snd (Monitor.processResult key w now r st) in
  Monitor.dispatched st' =
    (Monitor.dispatched st ++
       if Status_eqb previous (CheckResult.status r) then [] else [(r, previous)])%list /\
  (Status_eqb previous (CheckResult.status r) = true ->
   Monitor.attempts st' = Monitor.attempts st).
Proof.
  intros name Hfile Hstatus Hhistory. cbn zeta.
  destruct (processResult_saved key w now r st stem Hfile Hstatus Hhistory) as (_ & ->).
  fold name. destruct (Status_eqb _ (CheckResult.status r)); cbn [negb].
  - cbn. now rewrite app_nil_r.
  - match goal with
    | |- context [Monitor.notify key w r ?p ?s] =>
        destruct (notify_keeps_storage key w r p s) as (_ & _ & _ & _ & _ & _ & Hd)
    end.
    cbn zeta in Hd. rewrite Hd. split; [reflexivity|discriminate].
Qed.

(** What that iteration stores. *)
Lemma processResult_storage `{C : Vault.Aes256Cbc} key w now r st stem :
  let name := CheckResult.name r in
  Fs.historyFile name = Js.Normal (Fs.HistoryFile stem) ->
  Js.own_or_absent (Monitor.serviceStatuses st) name = true ->
  Js.own_or_absent (Monitor.serviceHistories st) name = true ->
  let history := match Monitor.serviceHistories st !! name with
                 | Some history => history
                 | None => []
                 end in
  let trimmed :=
    History.newerThan (Monitor.ninetyDaysAgo w now) (history ++ [Monitor.entry_of r]) in
  let st' := snd (Monitor.processResult key w now r st) in
  Monitor.historyFiles st' = <[stem := trimmed]> (Monitor.historyFiles st) /\
  Monitor.serviceHistories st' = <[name := trimmed]> (Monitor.serviceHistories st) /\
  Monitor.serviceStatuses st' = <[name := r]> (Monitor.serviceStatuses st) /\
  Monitor.servicesFile st' = Monitor.servicesFile st /\
  Monitor.notificationsFile st' = Monitor.notificationsFile st /\
  Monitor.clients st' = Monitor.clients st.
Proof.
  intros name Hfile Hstatus Hhistory. cbn zeta.
  destruct (processResult_saved key w now r st stem Hfile Hstatus Hhistory) as (_ & ->).
  fold name. destruct (negb _).
  - match goal with
    | |- context [Monitor.notify key w r ?p ?s] =>
        destruct (notify_keeps_storage key w r p s) as (H1 & H2 & H3 & H4 & H5 & H6 & _)
    end.
    cbn zeta in *. rewrite H1, H2, H3, H4, H5, H6. cbn. auto 6.
  - cbn. auto 6.
Qed.

(** C2, as stated, fails: the update loop saves the history before it
    stores the status and calls the dispatcher. For a service whose
    name holds a path separator the save throws, since no directory of
    that name exists in the history directory: on its first check the
    status changed, from unknown to up, and the dispatcher is not
    called. *)
Lemma cycle_history_write_fails_counterexample :
  exists r settled final,
    Monitor.fanOut Examples.healthy 0%Z (Examples.started [Scenarios.nested])
      = (Js.Normal [r], settled) /\
    Monitor.previousStatus (Examples.started [Scenarios.nested]) (CheckResult.name r)
      = Js.Normal unknown /\
    CheckResult.status r = up /\
    Monitor.checkAllServices (C := Vault.hex_cipher) Examples.ENCRYPTION_KEY
      Examples.healthy 0%Z (Examples.started [Scenarios.nested])
      = (Js.Throw Js.ENOENT, final, settled) /\
    Monitor.dispatched final = [] /\
    Monitor.serviceStatuses final !! "a/b" = None.
Proof.
  eexists _, _, _.
  split; [vm_compute; reflexivity|].
  split; [vm_compute; reflexivity|].
  split; [reflexivity|].
  split; [vm_compute; reflexivity|].
  split; vm_compute; reflexivity.
Qed.

(** C2 (amended). In the update loop of a cycle, for a result whose
    history is saved (its service's name leads to a file of the history
    directory) and whose name is looked up among the own properties of
    the status and history objects (it is not the name of a member of
    [Object.prototype] that the object lacks): the previous status is
    the status of the stored record, or [unknown] when there is none;
    the dispatcher is called if and only if the previous status differs
    from the result's status; the first check of a service, which has
    no stored record, always calls it, with [unknown] as the previous
    status; and the dispatcher itself, whatever the stored settings
    (of the four sections that the program's defaults have) and the
    clients are, does nothing when handed equal statuses. *)
Theorem cycle_alerts_iff_status_changed `{C : Vault.Aes256Cbc}
    (key : list byte) (w : Monitor.World) (now : Millis)
    (r : CheckResult.t) (st : Monitor.State) (stem : string) :
  let name := CheckResult.name r in
  Fs.historyFile name = Js.Normal (Fs.HistoryFile stem) ->
  Js.own_or_absent (Monitor.serviceStatuses st) name = true ->
  Js.own_or_absent (Monitor.serviceHistories st) name = true ->
  let previous := match Monitor.serviceStatuses st !! name with
                  | Some previousEntry => CheckResult.status previousEntry
                  | None => unknown
                  end in
  let st' := snd (Monitor.processResult key w now r st) in
  Monitor.previousStatus st name = Js.Normal previous /\
  (previous <> CheckResult.status r <->
     Monitor.dispatched st' = (Monitor.dispatched st ++ [(r, previous)])%list) /\
  (previous = CheckResult.status r <->
     Monitor.dispatched st' = Monitor.dispatched st) /\
  (previous = CheckResult.status r -> Monitor.attempts st' = Monitor.attempts st) /\
  (forall service ep lag start finished,
     Checker.checkService service ep lag start = Js.Settled (Js.Normal r, finished) ->
     Monitor.serviceStatuses st !! name = None ->
     Monitor.dispatched st' = (Monitor.dispatched st ++ [(r, unknown)])%list) /\
  (forall file clients net log,
     Dispatcher.sendNotifications key file clients net r (CheckResult.status r) log
     = (Js.Normal tt, log)).
Proof.
  intros name Hfile Hstatus Hhistory. cbn zeta.
  destruct (processResult_saved key w now r st stem Hfile Hstatus Hhistory) as (Hprev & _).
  destruct (processResult_dispatched key w now r st stem Hfile Hstatus Hhistory)
    as (Hd & Ha).
  cbn zeta in *. fold name in Hprev, Hd, Ha |- *.
  split; [exact Hprev|]. rewrite Hd.
  set (previous := match Monitor.serviceStatuses st !! name with
                   | Some previousEntry => CheckResult.status previousEntry
                   | None => unknown
                   end) in *.
  assert (Hlen : forall (l : list (CheckResult.t * Status)) x, l <> (l ++ [x])%list).
  { intros l x H. apply (f_equal (@length _)) in H.
    rewrite length_app in H. simpl in H. lia. }
  destruct (Status_eqb previous (CheckResult.status r)) eqn:Heq.
  - apply Status_eqb_eq in Heq. rewrite app_nil_r.
    split; [split; [congruence | intros H; now apply Hlen in H]|].
    split; [tauto|].
    split; [intros _; now apply Ha|].
    split; [|intros; apply sendNotifications_unchanged].
    intros service ep lag start finished Hr Hnone. exfalso.
    destruct (checkService_result _ _ _ _ _ _ Hr) as (r' & [= <-] & _ & Hupdown).
    subst previous. rewrite Hnone in Heq. rewrite <- Heq in Hupdown.
    destruct Hupdown; discriminate.
  - apply Status_eqb_neq in Heq.
    split; [tauto|].
    split; [split; [congruence | intros H; symmetry in H; now apply Hlen in H]|].
    split; [congruence|].
    split; [|intros; apply sendNotifications_unchanged].
    intros service ep lag start finished _ Hnone.
    subst previous. now rewrite Hnone.
Qed.

Lemma cycle_alerts_iff_status_changed_witness :
  Monitor.dispatched
    (snd (Monitor.processResult (C := Vault.hex_cipher) Examples.ENCRYPTION_KEY
            Examples.healthy 40%Z Examples.api_up (Examples.started [Examples.api])))
  = [(Examples.api_up, unknown)].
Proof.
  apply (proj1 (proj2 (proj2 (proj2 (proj2
           (cycle_alerts_iff_status_changed (C := Vault.hex_cipher)
              Examples.ENCRYPTION_KEY Examples.healthy 40%Z Examples.api_up
              (Examples.started [Examples.api]) "api" eq_refl eq_refl eq_refl)))))
           Examples.api (Checker.Responds 200%Z 40%Z) Examples.prompt 0%Z 40%Z);
    reflexivity.
Defined.

(** ** Removal of a service during a cycle *)

(** C4, as stated, fails: service "B" is removed while a cycle that
    loaded it awaits its probe; the removal leaves no status, no history
    and no history file for "B", and the update loop of the cycle then
    writes the history file of "B" again. *)
Lemma removed_service_history_counterexample :
  exists results settled removed final,
    Monitor.fanOut Examples.healthy 30000%Z Examples.monitoring_B
      = (Js.Normal results, settled) /\
    Monitor.deleteService "B" Examples.monitoring_B = (204%Z, removed) /\
    Monitor.loadServices removed = [] /\
    Monitor.serviceStatuses removed !! "B" = None /\
    Monitor.serviceHistories removed !! "B" = None /\
    Monitor.historyFiles removed !! "B" = None /\
    Monitor.updatePhase (C := Vault.hex_cipher) Examples.ENCRYPTION_KEY
      Examples.healthy settled results removed = (Js.Normal tt, final) /\
    Monitor.historyFiles final !! "B"
      = Some [Monitor.entry_of (Examples.B_up 30040%Z)].
Proof.
  eexists _, _, _, _.
  split; [vm_compute; reflexivity|].
  split; [vm_compute; reflexivity|].
  repeat split; vm_compute; reflexivity.
Qed.

(** C4 (amended). Processing a check result for a service that has been
    removed (lookups of its name in the status and history objects give
    nothing, and its history file is gone) is not a no-op when the
    service's name leads to a file of the history directory: the update
    loop writes that file anew, holding the result's entry when the
    entry is newer than 90 days before the save, and re-creates the
    in-memory history and the status record. *)
Theorem processResult_recreates_removed `{C : Vault.Aes256Cbc}
    (key : list byte) (w : Monitor.World) (now : Millis)
    (r : CheckResult.t) (st : Monitor.State) (stem : string) :
  let name := CheckResult.name r in
  let st' := snd (Monitor.processResult key w now r st) in
  let kept := History.newerThan (Monitor.ninetyDaysAgo w now) [Monitor.entry_of r] in
  Js.get (Monitor.serviceStatuses st) name = Js.Absent ->
  Js.get (Monitor.serviceHistories st) name = Js.Absent ->
  Fs.historyFile name = Js.Normal (Fs.HistoryFile stem) ->
  Monitor.historyFiles st !! stem = None ->
  Monitor.historyFiles st' !! stem = Some kept /\
  Monitor.serviceHistories st' !! name = Some kept /\
  Monitor.serviceStatuses st' !! name = Some r /\
  (forall t, CheckResult.lastChecked r = Some t -> (Monitor.ninetyDaysAgo w now < t)%Z ->
     Monitor.historyFiles st' !! stem = Some [Monitor.entry_of r]).
Proof.
  cbn zeta. intros Hstatus Hhistory Hfile _.
  destruct (processResult_storage key w now r st stem Hfile
              (get_absent_own_or_absent _ _ Hstatus)
              (get_absent_own_or_absent _ _ Hhistory)) as (Hf & Hh & Hs & _).
  cbn zeta in *. rewrite (get_absent_lookup _ _ Hhistory) in Hf, Hh. cbn [app] in Hf, Hh.
  rewrite Hf, Hh, Hs, !lookup_insert_eq.
  repeat split.
  intros t Ht Hlt. f_equal. unfold History.newerThan. cbn [List.filter Monitor.entry_of
    HistoryEntry.timestamp]. rewrite Ht. cbn [History.isAfter].
  apply Z.ltb_lt in Hlt. now rewrite Hlt.
Qed.

Lemma processResult_recreates_removed_witness :
  Monitor.historyFiles
    (snd (Monitor.processResult (C := Vault.hex_cipher) Examples.ENCRYPTION_KEY
            Examples.healthy 30040%Z (Examples.B_up 30040%Z) (Examples.started [])))
    !! "B"
  = Some [Monitor.entry_of (Examples.B_up 30040%Z)].
Proof.
  apply (proj2 (proj2 (proj2
           (processResult_recreates_removed (C := Vault.hex_cipher)
              Examples.ENCRYPTION_KEY Examples.healthy 30040%Z
              (Examples.B_up 30040%Z) (Examples.started []) "B"
              eq_refl eq_refl eq_refl eq_refl))) 30040%Z);
    [reflexivity | vm_compute; reflexivity].
Defined.

(** ** Scheduler *)

Lemma tick_running w p :
  Scheduler.running (Scheduler.tick w p) =
    (Scheduler.running p ++
       [{| Scheduler.settlesAt := snd (Monitor.fanOut w (Scheduler.nextTick p) (Scheduler.mon p));
           Scheduler.outcome := fst (Monitor.fanOut w (Scheduler.nextTick p) (Scheduler.mon p)) |}])%list.
Proof.
  unfold Scheduler.tick. destruct (Monitor.fanOut _ _ _). reflexivity.
Qed.

Lemma pick_earliest_In cycles c others :
  Scheduler.pick_earliest cycles = Some (c, others) -> In c cycles.
Proof.
  revert c others. induction cycles as [|a rest IH]; intros c others; simpl; [discriminate|].
  destruct (Scheduler.pick_earliest rest) as [[d os]|].
  - destruct (Scheduler.settlesAt a <=? Scheduler.settlesAt d)%Z; intros [= <- <-].
    + now left.
    + right. eapply IH. reflexivity.
  - intros [= <- <-]. now left.
Qed.

(** C5, as stated, fails: the only service has a timeout of one minute
    and its endpoint never answers. The first cycle is awaited by
    [initialize]; the first tick then starts a cycle that needs a minute,
    and the tick 30 seconds later starts a second fan-out beside it. *)
Lemma cycles_overlap_counterexample :
  exists p,
    Scheduler.initialize (C := Vault.hex_cipher) Examples.ENCRYPTION_KEY
      Examples.silent 0%Z (Examples.started [Examples.slow]) = Some p /\
    Scheduler.nextTick p = 90000%Z /\
    Scheduler.running p = [] /\
    map Scheduler.settlesAt
      (Scheduler.running
         (Scheduler.run (C := Vault.hex_cipher) Examples.ENCRYPTION_KEY
            Examples.silent 2 p))
    = [150000%Z; 180000%Z] /\
    Scheduler.nextTick
      (Scheduler.run (C := Vault.hex_cipher) Examples.ENCRYPTION_KEY
         Examples.silent 2 p)
    = 150000%Z.
Proof.
  eexists. split; [vm_compute; reflexivity|].
  repeat split; vm_compute; reflexivity.
Qed.

(** C5 (amended). A timer tick starts a new cycle unconditionally: when
    the 30-second tick fires while cycles are still running (none of
    them has settled by the tick), the tick is neither skipped nor
    queued; a further fan-out is started beside the running ones, which
    all stay in flight, and the next tick stays 30 seconds away. *)
Theorem tick_starts_cycle_unconditionally `{C : Vault.Aes256Cbc}
    (key : list byte) (w : Monitor.World) (p : Scheduler.Process) :
  (forall c, In c (Scheduler.running p) ->
     (Scheduler.nextTick p < Scheduler.settlesAt c)%Z) ->
  Scheduler.step key w p = Scheduler.tick w p /\
  (exists started,
     Scheduler.running (Scheduler.step key w p)
       = (Scheduler.running p ++ [started])%list /\
     Scheduler.outcome started
       = fst (Monitor.fanOut w (Scheduler.nextTick p) (Scheduler.mon p))) /\
  length (Scheduler.running (Scheduler.step key w p))
    = S (length (Scheduler.running p)) /\
  Scheduler.nextTick (Scheduler.step key w p)
    = (Scheduler.nextTick p + Scheduler.PERIOD)%Z.
Proof.
  intros Hrun.
  assert (Hstep : Scheduler.step key w p = Scheduler.tick w p).
  { unfold Scheduler.step.
    destruct (Scheduler.pick_earliest (Scheduler.running p)) as [[c others]|] eqn:Hp;
      [|reflexivity].
    apply pick_earliest_In in Hp. apply Hrun in Hp. apply Z.leb_gt in Hp.
    now rewrite Hp. }
  rewrite Hstep, tick_running. split; [reflexivity|].
  split; [eexists; split; reflexivity|].
  split; [rewrite length_app; simpl; lia|].
  unfold Scheduler.tick. destruct (Monitor.fanOut _ _ _). reflexivity.
Qed.

Lemma tick_starts_cycle_unconditionally_witness :
  length (Scheduler.running
            (Scheduler.step (C := Vault.hex_cipher) Examples.ENCRYPTION_KEY
               Examples.silent Examples.busy)) = 2.
Proof.
  apply (tick_starts_cycle_unconditionally (C := Vault.hex_cipher)
           Examples.ENCRYPTION_KEY Examples.silent Examples.busy).
  intros c [<-|[]]. vm_compute. reflexivity.
Defined.

(** ** Status listing *)

Lemma toFixed2_100 : History.toFixed2 100%float = "100.00".
Proof. vm_compute. reflexivity. Qed.

Example uptime_three_of_four :
  History.toFixed2
    (History.calculateUptime
       [Examples.observed 1%Z up; Examples.observed 2%Z up;
        Examples.observed 3%Z down; Examples.observed 4%Z up]) = "75.00".
Proof. vm_compute. reflexivity. Qed.

(** The element of the listing for a service whose name is looked up
    among the own properties. *)
Lemma statusView_own_or_absent st service :
  Js.own_or_absent (Monitor.serviceStatuses st) (ServiceSpec.name service) = true ->
  Js.own_or_absent (Monitor.serviceHistories st) (ServiceSpec.name service) = true ->
  Monitor.statusView st service =
    Js.Normal
      (Monitor.Shown
         {| Monitor.record :=
              match Monitor.serviceStatuses st !! ServiceSpec.name service with
              | Some status => status
              | None => Monitor.placeholder service
              end;
            Monitor.uptime :=
              History.toFixed2
                (History.calculateUptime
                   match Monitor.serviceHistories st !! ServiceSpec.name service with
                   | Some history => history
                   | None => []
                   end) |}).
Proof.
  intros Hstatus Hhistory. unfold Monitor.statusView.
  rewrite (own_or_absent_get _ _ Hstatus), (own_or_absent_get _ _ Hhistory).
  destruct (Monitor.serviceStatuses st !! ServiceSpec.name service),
    (Monitor.serviceHistories st !! ServiceSpec.name service); reflexivity.
Qed.

Lemma mapM_normal {A B} (f : A -> Js.Completion B) (g : A -> B) (l : list A) :
  Forall (fun a => f a = Js.Normal (g a)) l ->
  Monitor.mapM f l = Js.Normal (map g l).
Proof.
  induction 1 as [|a l Ha _ IH]; [reflexivity|].
  cbn [Monitor.mapM map]. now rewrite Ha, IH.
Qed.

(** C10, as stated, fails for a service named like a member of
    [Object.prototype]: before its first probe the lookups of
    ["constructor"] in the status and history objects give the
    inherited function, which has no [filter], so the uptime
    computation throws and the route sends nothing, for this service
    and for every other one; once the service has an in-memory history
    of its own, its element of the listing is the uptime alone, with no
    status. *)
Lemma listStatuses_inherited_name_counterexample :
  Monitor.serviceStatuses (Examples.started [Examples.api; Scenarios.inherited])
    !! "constructor" = None /\
  Monitor.serviceHistories (Examples.started [Examples.api; Scenarios.inherited])
    !! "constructor" = None /\
  Monitor.listStatuses (Examples.started [Examples.api; Scenarios.inherited])
    = Js.Throw Js.TypeError /\
  Monitor.listStatuses Scenarios.loaded_inherited = Js.Normal [Monitor.Bare "100.00"].
Proof. repeat split; vm_compute; reflexivity. Qed.

(** C10 (amended). When the name of every stored service is looked up
    among the own properties of the status and history objects (no
    service is named like a member of [Object.prototype] that the
    object lacks), the status listing does not fail and has one element
    per stored service, in the order of the list; for a service that
    has never been probed (no status record, and no history or an empty
    one) the element at its position carries the service's name and
    URL, status [unknown], [null] status code, response time,
    last-checked time and error, and uptime "100.00". *)
Theorem listStatuses_never_probed (st : Monitor.State) (i : nat) (service : ServiceSpec.t) :
  Forall (fun stored =>
            Js.own_or_absent (Monitor.serviceStatuses st) (ServiceSpec.name stored) = true /\
            Js.own_or_absent (Monitor.serviceHistories st) (ServiceSpec.name stored) = true)
    (Monitor.loadServices st) ->
  Monitor.loadServices st !! i = Some service ->
  Monitor.serviceStatuses st !! ServiceSpec.name service = None ->
  (Monitor.serviceHistories st !! ServiceSpec.name service = None \/
   Monitor.serviceHistories st !! ServiceSpec.name service = Some []) ->
  exists listed view,
    Monitor.listStatuses st = Js.Normal listed /\
    length listed = length (Monitor.loadServices st) /\
    listed !! i = Some (Monitor.Shown view) /\
    Monitor.uptime view = "100.00" /\
    CheckResult.name (Monitor.record view) = ServiceSpec.name service /\
    CheckResult.url (Monitor.record view) = ServiceSpec.url service /\
    CheckResult.status (Monitor.record view) = unknown /\
    CheckResult.statusCode (Monitor.record view) = None /\
    CheckResult.responseTime (Monitor.record view) = None /\
    CheckResult.lastChecked (Monitor.record view) = None /\
    CheckResult.error (Monitor.record view) = None.
Proof.
  intros Hown Hi Hstatus Hhist. unfold Monitor.listStatuses.
  eexists _, _. split.
  - apply mapM_normal. eapply List.Forall_impl; [|exact Hown].
    intros stored [Hs Hh]. cbn beta. now apply statusView_own_or_absent.
  - split; [apply length_map|].
    split; [rewrite list_lookup_fmap, Hi; reflexivity|].
    cbn [Monitor.record Monitor.uptime]. rewrite Hstatus. cbn.
    assert (Hup : History.toFixed2
                    (History.calculateUptime
                       match Monitor.serviceHistories st !! ServiceSpec.name service with
                       | Some history => history
                       | None => []
                       end) = "100.00").
    { destruct Hhist as [-> | ->]; apply toFixed2_100. }
    rewrite Hup. repeat split.
Qed.

Lemma listStatuses_never_probed_witness :
  exists listed view,
    Monitor.listStatuses (Examples.started [Examples.api; Examples.slow])
      = Js.Normal listed /\
    listed !! 1 = Some (Monitor.Shown view) /\
    Monitor.uptime view = "100.00" /\
    CheckResult.status (Monitor.record view) = unknown.
Proof.
  destruct (listStatuses_never_probed
              (Examples.started [Examples.api; Examples.slow]) 1 Examples.slow
              ltac:(repeat constructor) eq_refl eq_refl (or_introl eq_refl))
    as (listed & view & Hl & _ & Hv & Hup & _ & _ & Hs & _).
  exists listed, view. auto.
Defined.

(** ** Notification dispatcher *)

Lemma try_log_send net ch log :
  Dispatcher.try_log (Dispatcher.send net ch) log =
    (Js.Normal tt,
     (log ++ [{| Dispatcher.channel := ch; Dispatcher.outcome := net ch |}])%list).
Proof.
  unfold Dispatcher.try_log, Dispatcher.send. destruct (net ch); reflexivity.
Qed.

(** With both clients bound, a failed send stops nothing: every enabled
    channel is attempted and the dispatch completes normally. *)
Lemma dispatch_isolated_when_bound t c net n status previous log :
  previous <> status ->
  let clients := {| Dispatcher.transporter := Dispatcher.Bound t;
                    Dispatcher.twilioClient := Dispatcher.Bound c |} in
  Dispatcher.dispatch clients net n status previous log =
    (Js.Normal tt, (log ++ Dispatcher.expected_attempts net n)%list).
Proof.
  intros Hne clients. apply Status_eqb_neq in Hne.
  unfold Dispatcher.dispatch, Dispatcher.expected_attempts. rewrite Hne.
  unfold Dispatcher.sendEmailNotification, Dispatcher.sendTeamsNotification,
    Dispatcher.sendSmsNotification, Dispatcher.sendIphoneNotification,
    Dispatcher.with_client, Dispatcher.and_then, Dispatcher.ret. cbn [clients
    Dispatcher.transporter Dispatcher.twilioClient].
  destruct (Notifications.Email.enabled _),
    (Notifications.Teams.enabled _),
    (Js.truthy (Notifications.Teams.webhookUrl _)),
    (Notifications.Sms.enabled _),
    (Notifications.Iphone.enabled _),
    (Js.truthy (Notifications.Iphone.webhookUrl _));
    cbn [negb orb andb]; rewrite ?try_log_send; cbn [app];
    rewrite <- ?app_assoc, ?app_nil_r; reflexivity.
Qed.

(** C9 fails on the code. The process starts on settings with mail
    enabled but incomplete, so [initializeNotifications] never assigns
    [transporter]. On the first status change the mail channel reads the
    unbound identifier outside its [try] block: the dispatch throws
    before the enabled chat and device webhooks are attempted, and the
    throw leaves [sendNotifications] and [checkAllServices]. *)
Theorem dispatch_unbound_transporter_aborts :
  Monitor.clients Examples.started_mail_incomplete = Examples.no_clients /\
  Dispatcher.sendNotifications (C := Vault.hex_cipher) Examples.ENCRYPTION_KEY
    (Content Examples.mail_incomplete) Examples.no_clients
    (Monitor.net Examples.healthy) Examples.api_up unknown []
  = (Js.Throw (Js.ReferenceError "transporter"), []) /\
  exists final settled,
    Monitor.checkAllServices (C := Vault.hex_cipher) Examples.ENCRYPTION_KEY
      Examples.healthy 0%Z Examples.started_mail_incomplete
    = (Js.Throw (Js.ReferenceError "transporter"), final, settled) /\
    Monitor.dispatched final = [(Examples.api_up, unknown)] /\
    Monitor.attempts final = [].
Proof.
  split; [vm_compute; reflexivity|].
  split; [vm_compute; reflexivity|].
  eexists _, _. split; [vm_compute; reflexivity|].
  split; vm_compute; reflexivity.
Qed.

(** ** Decryption failures *)

(** A text that includes the separator splits at its first occurrence. *)
Lemma includes_decompose sep s :
  Js.includes sep s = true ->
  exists first rest,
    s = first ++ String sep rest /\ Js.includes sep first = false /\
    hd "" (Js.split sep s) = first.
Proof.
  induction s as [|a s IH]; simpl; [discriminate|].
  destruct (Ascii.eqb_spec a sep) as [->|Hne]; simpl.
  - intros _. exists "", s. repeat split.
  - intros Hs. destruct (IH Hs) as (first & rest & -> & Hf & Hhd).
    exists (String a first), rest. simpl.
    apply Ascii.eqb_neq in Hne. rewrite Hne, Hf. repeat split.
    rewrite (split_app_sep _ _ _ Hf). reflexivity.
Qed.

(** C3, as stated, fails: "ab:cd" contains the delimiter and is not vault
    ciphertext; its first part decodes to a one-byte IV, which
    [createDecipheriv] refuses, and [decrypt] lets the error through. *)
Lemma decrypt_raises_counterexample :
  Js.includes Vault.delimiter "ab:cd" = true /\
  Vault.decrypt (C := Vault.hex_cipher) Examples.ENCRYPTION_KEY "ab:cd"
  = Js.Throw Js.InvalidIV.
Proof. split; vm_compute; reflexivity. Qed.

(** C3 (amended). [decrypt] has no error handling of its own: on an input
    containing the delimiter it raises when the text before the first
    delimiter does not decode to a 16-byte IV, and otherwise, under a
    256-bit key, completes as the decipher does on the remainder, raising
    what the decipher raises. [loadNotifications] catches the error: when
    a stored secret makes [decrypt] raise, it returns the default
    settings, in which every channel is disabled. *)
Theorem decrypt_raises_load_recovers `{C : Vault.Aes256Cbc} (key : list byte) :
  (forall text,
     Js.includes Vault.delimiter text = true ->
     length (Buffer.from_hex (hd "" (Js.split Vault.delimiter text))) <> Vault.IV_LENGTH ->
     Vault.decrypt key text = Js.Throw Js.InvalidIV) /\
  (forall first rest,
     Js.includes Vault.delimiter first = false ->
     length (Buffer.from_hex first) = Vault.IV_LENGTH ->
     length key = Vault.KEY_LENGTH ->
     Vault.decrypt key (first ++ String Vault.delimiter rest)
     = Vault.decipher_utf8 key (Buffer.from_hex first) rest) /\
  (forall n,
     Js.raises (Dispatcher.decrypt_if_set key (Notifications.pass n)) \/
     Js.raises (Dispatcher.decrypt_if_set key
                  (Notifications.Sms.accountSid (Notifications.sms n))) \/
     Js.raises (Dispatcher.decrypt_if_set key
                  (Notifications.Sms.authToken (Notifications.sms n))) ->
     Dispatcher.loadNotifications key (Content n) = Notifications.default) /\
  Notifications.Email.enabled (Notifications.email Notifications.default) = false /\
  Notifications.Teams.enabled (Notifications.teams Notifications.default) = false /\
  Notifications.Sms.enabled (Notifications.sms Notifications.default) = false /\
  Notifications.Iphone.enabled (Notifications.iphone Notifications.default) = false.
Proof.
  split; [|split; [|split; [|repeat split]]].
  - intros text Hinc Hlen.
    destruct (includes_decompose _ _ Hinc) as (first & rest & -> & Hf & Hhd).
    rewrite Hhd in Hlen. rewrite (decrypt_delimited key first rest Hf).
    now rewrite (createDecipheriv_bad_iv key _ Hlen).
  - intros first rest Hf Hlen Hk.
    rewrite (decrypt_delimited key first rest Hf). unfold Vault.createDecipheriv.
    now rewrite (createCipheriv_ok _ _ Hk Hlen).
  - intros n Hraise.
    unfold Dispatcher.loadNotifications, Dispatcher.read_and_decrypt.
    cbn [read_json Js.bind].
    destruct (Dispatcher.decrypt_if_set key (Notifications.pass n)) as [p|e1];
      cbn [Js.bind]; [|reflexivity].
    destruct (Dispatcher.decrypt_if_set key
                (Notifications.Sms.accountSid (Notifications.sms n))) as [a|e2];
      cbn [Js.bind]; [|reflexivity].
    destruct (Dispatcher.decrypt_if_set key
                (Notifications.Sms.authToken (Notifications.sms n))) as [t|e3];
      cbn [Js.bind]; [|reflexivity].
    destruct Hraise as [[e H]|[[e H]|[e H]]]; discriminate H.
Qed.

Lemma decrypt_raises_load_recovers_witness :
  Vault.decrypt (C := Vault.hex_cipher) Examples.ENCRYPTION_KEY "ab:cd"
    = Js.Throw Js.InvalidIV /\
  Dispatcher.loadNotifications (C := Vault.hex_cipher) Examples.ENCRYPTION_KEY
    (Content Examples.stored_plain_password) = Notifications.default.
Proof.
  pose proof (decrypt_raises_load_recovers (C := Vault.hex_cipher)
                Examples.ENCRYPTION_KEY) as (Hiv & _ & Hload & _).
  split.
  - apply Hiv; [reflexivity | vm_compute; discriminate].
  - apply Hload. left. exists Js.InvalidIV. vm_compute. reflexivity.
Defined.

(* ===================================================================== *)
(** * Further properties of the code *)
(* ===================================================================== *)

(** ** Strings and buffers *)

(** [split] cuts at every separator: joining the parts with the
    separator gives the string back, no part contains the separator,
    there is one more part than there are separators, and a string
    without the separator is its own single part. *)
Theorem split_parts (sep : ascii) (s : string) :
  Js.join (String sep EmptyString) (Js.split sep s) = s /\
  Forall (fun part => Js.includes sep part = false) (Js.split sep s) /\
  length (Js.split sep s)
    = S (length (List.filter (fun a => Ascii.eqb a sep) (list_ascii_of_string s))) /\
  (Js.includes sep s = false <-> Js.split sep s = [s]).
Proof.
  split; [apply join_split|].
  split; [|split].
  - induction s as [|a s IH]; simpl; [repeat constructor|].
    destruct (Ascii.eqb a sep) eqn:Ha; [constructor; [reflexivity|exact IH]|].
    destruct (Js.split sep s) as [|p ps]; [repeat constructor; simpl; now rewrite Ha|].
    inversion IH as [|? ? Hp Hps]; subst. constructor; [|exact Hps].
    simpl. now rewrite Ha, Hp.
  - induction s as [|a s IH]; simpl; [reflexivity|].
    destruct (Ascii.eqb a sep) eqn:Ha; simpl; [now rewrite IH|].
    pose proof (split_nonempty sep s) as Hn.
    destruct (Js.split sep s) as [|p ps]; [contradiction|]. exact IH.
  - induction s as [|a s IH]; simpl; [tauto|].
    destruct (Ascii.eqb a sep) eqn:Ha; simpl.
    + split; [discriminate|]. intros H. injection H as H _. discriminate H.
    + pose proof (split_nonempty sep s) as Hn.
      destruct (Js.split sep s) as [|p ps]; [contradiction|].
      rewrite IH. split.
      * intros [= -> ->]. reflexivity.
      * intros [= -> ->]. reflexivity.
Qed.

Lemma to_hex_length (buf : list byte) :
  String.length (Buffer.to_hex buf) = 2 * length buf.
Proof. induction buf as [|b buf IH]; simpl; [reflexivity|]. rewrite IH. lia. Qed.

Lemma from_hex_length (s : string) :
  2 * length (Buffer.from_hex s) <= String.length s.
Proof.
  remember (String.length s) as n eqn:Hn. revert s Hn.
  induction n as [n IH] using lt_wf_ind. intros s ->.
  destruct s as [|a [|b rest]]; simpl; try lia.
  destruct (Buffer.hex_value a), (Buffer.hex_value b); simpl; try lia.
  specialize (IH (String.length rest) ltac:(simpl; lia) rest eq_refl). lia.
Qed.

(** The hex codec of buffers: [toString('hex')] writes two digits per
    byte, [Buffer.from(_, 'hex')] reads them back, drops a trailing odd
    digit, and never decodes more than one byte per two characters. *)
Theorem hex_codec (buf : list byte) :
  String.length (Buffer.to_hex buf) = 2 * length buf /\
  Buffer.from_hex (Buffer.to_hex buf) = buf /\
  (forall c, Buffer.from_hex (Buffer.to_hex buf ++ String c EmptyString) = buf) /\
  (forall s, 2 * length (Buffer.from_hex s) <= String.length s).
Proof.
  split; [apply to_hex_length|].
  split; [apply from_hex_to_hex|].
  split; [|apply from_hex_length].
  intros c. induction buf as [|b buf IH]; [reflexivity|].
  destruct (hex_of_byte b) as (h & l & Hh & Hl & Hb & _).
  cbv zeta in Hh, Hl.
  change (Buffer.from_hex
            (String (Buffer.hex_digit (Byte.to_N b / 16))
               (String (Buffer.hex_digit (Byte.to_N b mod 16))
                  (Buffer.to_hex buf ++ String c EmptyString))) = b :: buf).
  cbn [Buffer.from_hex]. now rewrite Hh, Hl, Hb, IH.
Qed.

(** ** Vault and stored settings *)

Lemma decrypt_encrypted `{C : Vault.Aes256Cbc} key text iv :
  Vault.Lawful C -> length key = Vault.KEY_LENGTH -> length iv = Vault.IV_LENGTH ->
  Vault.decrypt key
    (Buffer.to_hex iv ++ String Vault.delimiter (Vault.cipher_hex key iv text))
  = Js.Normal text.
Proof.
  intros Hlaw Hk Hiv. rewrite decrypt_delimited by apply to_hex_no_delimiter.
  rewrite from_hex_to_hex. unfold Vault.createDecipheriv.
  rewrite (createCipheriv_ok _ _ Hk Hiv). cbn [Js.bind]. now apply Hlaw.
Qed.

(** For a non-empty text and a 256-bit key, [encrypt] reads exactly the
    next 16 bytes of entropy as its IV, so successive calls read disjoint
    parts of the tape; its output is the hex of that IV, the delimiter
    and the ciphertext, so it always contains the delimiter; and under a
    lawful cipher [decrypt] gives the text back, also when the text
    itself contains the delimiter. *)
Theorem encrypt_fresh_iv_round_trip `{C : Vault.Aes256Cbc}
    (key : list byte) (text : string) (e : Vault.Entropy) :
  text <> "" -> length key = Vault.KEY_LENGTH ->
  let iv := map (Vault.tape e) (seq (Vault.cursor e) Vault.IV_LENGTH) in
  exists c e',
    Vault.encrypt key text e = (Js.Normal c, e') /\
    c = Buffer.to_hex iv ++ String Vault.delimiter (Vault.cipher_hex key iv text) /\
    Vault.cursor e' = Vault.cursor e + Vault.IV_LENGTH /\
    Vault.tape e' = Vault.tape e /\
    Js.includes Vault.delimiter c = true /\
    (Vault.Lawful C -> Vault.decrypt key c = Js.Normal text).
Proof.
  intros Hne Hk iv. rewrite (encrypt_nonempty key text e Hne Hk).
  eexists _, _. split; [reflexivity|]. cbn [Vault.randomBytes fst snd].
  fold iv. split; [reflexivity|]. split; [reflexivity|]. split; [reflexivity|].
  split; [apply includes_app_sep|].
  intros Hlaw. apply decrypt_encrypted; [exact Hlaw|exact Hk|].
  subst iv. now rewrite length_map, length_seq.
Qed.

Lemma encrypt_fresh_iv_round_trip_witness :
  exists c,
    fst (Vault.encrypt (C := Vault.hex_cipher) Examples.ENCRYPTION_KEY "a:b"
           Examples.entropy) = Js.Normal c /\
    Vault.decrypt (C := Vault.hex_cipher) Examples.ENCRYPTION_KEY c = Js.Normal "a:b".
Proof.
  destruct (encrypt_fresh_iv_round_trip (C := Vault.hex_cipher)
              Examples.ENCRYPTION_KEY "a:b" Examples.entropy
              ltac:(discriminate) eq_refl)
    as (c & e' & Henc & _ & _ & _ & _ & Hdec).
  exists c. rewrite Henc. split; [reflexivity|]. apply Hdec, hex_cipher_lawful.
Defined.

Lemma with_secrets_id n :
  Notifications.with_secrets n (Notifications.pass n)
    (Notifications.Sms.accountSid (Notifications.sms n))
    (Notifications.Sms.authToken (Notifications.sms n)) = n.
Proof. destruct n as [[? [? ? ? ? []] ? ?] ? [] ?]. reflexivity. Qed.

Lemma with_secrets_twice n p a t p' a' t' :
  Notifications.with_secrets (Notifications.with_secrets n p a t) p' a' t'
  = Notifications.with_secrets n p' a' t'.
Proof. reflexivity. Qed.

(** A secret field survives being stored and loaded. *)
Lemma secret_round_trip `{C : Vault.Aes256Cbc} key field e :
  Vault.Lawful C -> length key = Vault.KEY_LENGTH ->
  exists stored e',
    Routes.encrypt_if_set key field e = (Js.Normal stored, e') /\
    Dispatcher.decrypt_if_set key stored = Js.Normal field /\
    (field <> "" -> Js.includes Vault.delimiter stored = true) /\
    (field = "" -> stored = "").
Proof.
  intros Hlaw Hk. unfold Routes.encrypt_if_set, Dispatcher.decrypt_if_set.
  destruct (Js.truthy field) eqn:Ht.
  - apply truthy_true_iff in Ht.
    rewrite (encrypt_nonempty key field e Ht Hk). eexists _, _. split; [reflexivity|].
    match goal with
    | |- context [Js.truthy (?h ++ String ?d ?c)] =>
        assert (Htc : Js.truthy (h ++ String d c) = true) by (destruct h; reflexivity)
    end.
    rewrite Htc. split; [|split; [intros _; apply includes_app_sep|]].
    + apply decrypt_encrypted; [exact Hlaw|exact Hk|apply randomBytes_length].
    + intros ->. contradiction.
  - exists field, e. split; [reflexivity|]. rewrite Ht. split; [reflexivity|].
    destruct field; [|discriminate]. split; [intros H; now contradiction H|reflexivity].
Qed.

Lemma save_then_load `{C : Vault.Aes256Cbc} key n e :
  Vault.Lawful C -> length key = Vault.KEY_LENGTH ->
  exists p a t e',
    Routes.saveNotifications key n e
      = (Js.Normal (Notifications.with_secrets n p a t), e') /\
    Dispatcher.loadNotifications key (Content (Notifications.with_secrets n p a t)) = n /\
    (Notifications.pass n <> "" -> Js.includes Vault.delimiter p = true) /\
    (Notifications.Sms.accountSid (Notifications.sms n) <> "" ->
       Js.includes Vault.delimiter a = true) /\
    (Notifications.Sms.authToken (Notifications.sms n) <> "" ->
       Js.includes Vault.delimiter t = true).
Proof.
  intros Hlaw Hk. unfold Routes.saveNotifications.
  destruct (secret_round_trip key (Notifications.pass n) e Hlaw Hk)
    as (p & e1 & Hp & Dp & Ip & _).
  destruct (secret_round_trip key (Notifications.Sms.accountSid (Notifications.sms n))
              e1 Hlaw Hk) as (a & e2 & Ha & Da & Ia & _).
  destruct (secret_round_trip key (Notifications.Sms.authToken (Notifications.sms n))
              e2 Hlaw Hk) as (t & e3 & Ht & Dt & It & _).
  rewrite Hp, Ha, Ht. exists p, a, t, e3. split; [reflexivity|].
  split; [|auto].
  unfold Dispatcher.loadNotifications, Dispatcher.read_and_decrypt.
  cbn [read_json Js.bind].
  change (Notifications.pass (Notifications.with_secrets n p a t)) with p.
  change (Notifications.Sms.accountSid
            (Notifications.sms (Notifications.with_secrets n p a t))) with a.
  change (Notifications.Sms.authToken
            (Notifications.sms (Notifications.with_secrets n p a t))) with t.
  rewrite Dp, Da, Dt. cbn [Js.bind]. rewrite with_secrets_twice. apply with_secrets_id.
Qed.

(** Saving the settings and loading them again gives the settings back,
    for every settings object and every state of the entropy source,
    under a lawful cipher and a 256-bit key; what is written holds every
    non-empty secret in delimited (IV and ciphertext) form and every
    other field unchanged. *)
Theorem saveNotifications_loadNotifications `{C : Vault.Aes256Cbc}
    (key : list byte) (n : Notifications.t) (e : Vault.Entropy) :
  Vault.Lawful C -> length key = Vault.KEY_LENGTH ->
  exists stored e',
    Routes.saveNotifications key n e = (Js.Normal stored, e') /\
    Dispatcher.loadNotifications key (Content stored) = n /\
    Notifications.with_secrets stored "" "" "" = Notifications.with_secrets n "" "" "" /\
    (Notifications.pass n <> "" ->
       Js.includes Vault.delimiter (Notifications.pass stored) = true) /\
    (Notifications.Sms.accountSid (Notifications.sms n) <> "" ->
       Js.includes Vault.delimiter
         (Notifications.Sms.accountSid (Notifications.sms stored)) = true) /\
    (Notifications.Sms.authToken (Notifications.sms n) <> "" ->
       Js.includes Vault.delimiter
         (Notifications.Sms.authToken (Notifications.sms stored)) = true).
Proof.
  intros Hlaw Hk.
  destruct (save_then_load key n e Hlaw Hk) as (p & a & t & e' & Hs & Hl & Ip & Ia & It).
  exists (Notifications.with_secrets n p a t), e'.
  split; [exact Hs|]. split; [exact Hl|]. split; [reflexivity|].
  split; [exact Ip|]. split; [exact Ia|exact It].
Qed.

Lemma saveNotifications_loadNotifications_witness :
  exists stored,
    fst (Routes.saveNotifications (C := Vault.hex_cipher) Examples.ENCRYPTION_KEY
           Scenarios.complete Examples.entropy) = Js.Normal stored /\
    Dispatcher.loadNotifications (C := Vault.hex_cipher) Examples.ENCRYPTION_KEY
      (Content stored) = Scenarios.complete.
Proof.
  destruct (saveNotifications_loadNotifications (C := Vault.hex_cipher)
              Examples.ENCRYPTION_KEY Scenarios.complete Examples.entropy
              hex_cipher_lawful eq_refl) as (stored & e' & Hs & Hl & _).
  exists stored. rewrite Hs. auto.
Defined.

Lemma mask_cases secret : Routes.mask secret = "***" \/ Routes.mask secret = "".
Proof. unfold Routes.mask. destruct (Js.truthy secret); auto. Qed.

(** The settings sent to a client never show a secret: each of the three
    secret fields is "***" or empty, every other field is the loaded
    one, and two settings that differ only in the values of their set
    secrets get the same answer. *)
Theorem safeNotifications_hides_secrets (n : Notifications.t) :
  let safe := Routes.safeNotifications n in
  (Notifications.pass safe = "***" \/ Notifications.pass safe = "") /\
  (Notifications.Sms.accountSid (Notifications.sms safe) = "***" \/
   Notifications.Sms.accountSid (Notifications.sms safe) = "") /\
  (Notifications.Sms.authToken (Notifications.sms safe) = "***" \/
   Notifications.Sms.authToken (Notifications.sms safe) = "") /\
  Notifications.with_secrets safe "" "" "" = Notifications.with_secrets n "" "" "" /\
  (forall pass accountSid authToken,
     Js.truthy pass = Js.truthy (Notifications.pass n) ->
     Js.truthy accountSid
       = Js.truthy (Notifications.Sms.accountSid (Notifications.sms n)) ->
     Js.truthy authToken
       = Js.truthy (Notifications.Sms.authToken (Notifications.sms n)) ->
     Routes.safeNotifications (Notifications.with_secrets n pass accountSid authToken)
     = safe).
Proof.
  cbn zeta. unfold Routes.safeNotifications.
  split; [apply mask_cases|]. split; [apply mask_cases|]. split; [apply mask_cases|].
  split; [reflexivity|].
  intros p a t Hp Ha Ht. rewrite with_secrets_twice.
  change (Notifications.pass (Notifications.with_secrets n p a t)) with p.
  change (Notifications.Sms.accountSid
            (Notifications.sms (Notifications.with_secrets n p a t))) with a.
  change (Notifications.Sms.authToken
            (Notifications.sms (Notifications.with_secrets n p a t))) with t.
  unfold Routes.mask. now rewrite Hp, Ha, Ht.
Qed.

Lemma safeNotifications_hides_secrets_witness :
  Routes.safeNotifications Scenarios.complete_other_secrets
  = Routes.safeNotifications Scenarios.complete.
Proof.
  apply (proj2 (proj2 (proj2 (proj2
           (safeNotifications_hides_secrets Scenarios.complete))))
           "correct horse" "AC9999" "other"); reflexivity.
Defined.

(** The settings that [initializeNotifications] reads decide its
    assignments and whether the SMS library's constructor is called. *)
Lemma initializeNotifications_unfold `{C : Vault.Aes256Cbc} key file clients :
  let n := Dispatcher.loadNotifications key file in
  let smtp := Notifications.Email.smtp (Notifications.email n) in
  let sms := Notifications.sms n in
  let mail_ready :=
    Notifications.Email.enabled (Notifications.email n)
    && Js.truthy (Notifications.Smtp.host smtp)
    && Js.truthy (Notifications.Auth.user (Notifications.Smtp.auth smtp))
    && Js.truthy (Notifications.Auth.pass (Notifications.Smtp.auth smtp)) in
  let sms_ready :=
    Notifications.Sms.enabled sms
    && Js.truthy (Notifications.Sms.accountSid sms)
    && Js.truthy (Notifications.Sms.authToken sms) in
  let accepted := String.prefix "AC" (Notifications.Sms.accountSid sms) in
  Dispatcher.initializeNotifications key file clients =
    (if sms_ready && negb accepted
     then Js.Throw (Js.LibraryError "accountSid must start with AC")
     else Js.Normal tt,
     {| Dispatcher.transporter :=
          if mail_ready then Dispatcher.Bound smtp else Dispatcher.transporter clients;
        Dispatcher.twilioClient :=
          if sms_ready && accepted
          then Dispatcher.Bound (Notifications.Sms.accountSid sms,
                                 Notifications.Sms.authToken sms)
          else Dispatcher.twilioClient clients |}).
Proof.
  cbn zeta. unfold Dispatcher.initializeNotifications, Dispatcher.twilio.
  destruct (_ && _ && Js.truthy (Notifications.Sms.authToken _)); [|reflexivity].
  destruct (String.prefix "AC" _); reflexivity.
Qed.

(** Updating the settings and reading them back: under a lawful cipher
    and a 256-bit key the settings are stored, the stored file loads to
    the submitted settings, reading them through the route shows the
    submitted settings with their secrets masked, and services,
    statuses and histories are untouched. The update answers 200 when
    the SMS channel is disabled or incomplete or its account id starts
    with "AC"; otherwise the SMS library's constructor throws after the
    settings were stored, the update answers 500, and the SMS client
    stays what it was. *)
Theorem putNotifications_then_get `{C : Vault.Aes256Cbc}
    (key : list byte) (body : Notifications.t) (e : Vault.Entropy)
    (st : Monitor.State) :
  Vault.Lawful C -> length key = Vault.KEY_LENGTH ->
  let sms := Notifications.sms body in
  let sms_ready :=
    Notifications.Sms.enabled sms
    && Js.truthy (Notifications.Sms.accountSid sms)
    && Js.truthy (Notifications.Sms.authToken sms) in
  let accepted := String.prefix "AC" (Notifications.Sms.accountSid sms) in
  exists response st' e',
    Routes.putNotifications key body e st = (response, st', e') /\
    Dispatcher.loadNotifications key (Monitor.notificationsFile st') = body /\
    Routes.getNotifications key st' = Routes.Json 200 (Routes.safeNotifications body) /\
    Monitor.clients st'
      = snd (Dispatcher.initializeNotifications key (Monitor.notificationsFile st')
               (Monitor.clients st)) /\
    Monitor.servicesFile st' = Monitor.servicesFile st /\
    Monitor.serviceStatuses st' = Monitor.serviceStatuses st /\
    Monitor.serviceHistories st' = Monitor.serviceHistories st /\
    Monitor.historyFiles st' = Monitor.historyFiles st /\
    (sms_ready = false \/ accepted = true ->
     response = Routes.Json 200 "Notification settings updated successfully") /\
    (sms_ready = true -> accepted = false ->
     (exists message,
        response = Routes.Failure 500
                     ("Failed to save notification settings: " ++ message)) /\
     Dispatcher.twilioClient (Monitor.clients st')
       = Dispatcher.twilioClient (Monitor.clients st)).
Proof.
  intros Hlaw Hk.
  destruct (save_then_load key body e Hlaw Hk) as (p & a & t & e' & Hs & Hl & _).
  cbn zeta. unfold Routes.putNotifications. rewrite Hs.
  pose proof (initializeNotifications_unfold key
                (Content (Notifications.with_secrets body p a t)) (Monitor.clients st))
    as Hinit.
  cbn zeta in Hinit. rewrite Hl in Hinit. rewrite Hinit.
  eexists _, _, _. split; [reflexivity|]. cbn [Monitor.notificationsFile Monitor.clients
    Monitor.servicesFile Monitor.serviceStatuses Monitor.serviceHistories
    Monitor.historyFiles].
  split; [exact Hl|]. unfold Routes.getNotifications. cbn [Monitor.notificationsFile].
  rewrite Hl, Hinit. cbn [snd].
  do 6 (split; [reflexivity|]). split.
  - intros [-> | ->]; [reflexivity|]. now rewrite andb_false_r.
  - intros -> ->. cbn. split; [eexists|]; reflexivity.
Qed.

Lemma putNotifications_then_get_witness :
  exists response st' e',
    Routes.putNotifications (C := Vault.hex_cipher) Examples.ENCRYPTION_KEY
      Scenarios.wrong_sid Examples.entropy (Examples.started [Examples.api])
      = (response, st', e') /\
    Dispatcher.loadNotifications (C := Vault.hex_cipher) Examples.ENCRYPTION_KEY
      (Monitor.notificationsFile st') = Scenarios.wrong_sid /\
    (exists message,
       response = Routes.Failure 500
                    ("Failed to save notification settings: " ++ message)) /\
    Dispatcher.twilioClient (Monitor.clients st') = Dispatcher.Unbound.
Proof.
  destruct (putNotifications_then_get (C := Vault.hex_cipher) Examples.ENCRYPTION_KEY
              Scenarios.wrong_sid Examples.entropy (Examples.started [Examples.api])
              hex_cipher_lawful eq_refl)
    as (response & st' & e' & Hput & Hload & _ & _ & _ & _ & _ & _ & _ & Hfail).
  exists response, st', e'. split; [exact Hput|]. split; [exact Hload|].
  destruct (Hfail eq_refl eq_refl) as (Hmsg & Hclient). split; [exact Hmsg|].
  rewrite Hclient. reflexivity.
Defined.


(** Settings whose SMS account id is refused: the stored form of
    [Scenarios.wrong_sid] makes [initializeNotifications] throw after it
    has bound the transporter. *)
Example initializeNotifications_refused_sid :
  exists stored,
    fst (Routes.saveNotifications (C := Vault.hex_cipher) Examples.ENCRYPTION_KEY
           Scenarios.wrong_sid Examples.entropy) = Js.Normal stored /\
    Dispatcher.initializeNotifications (C := Vault.hex_cipher) Examples.ENCRYPTION_KEY
      (Content stored) Examples.no_clients
    = (Js.Throw (Js.LibraryError "accountSid must start with AC"),
       {| Dispatcher.transporter :=
            Dispatcher.Bound
              (Notifications.Email.smtp (Notifications.email Scenarios.wrong_sid));
          Dispatcher.twilioClient := Dispatcher.Unbound |}).
Proof. eexists. split; [vm_compute; reflexivity|]. vm_compute. reflexivity. Qed.

(** ** Checker *)

(** A service is reported up exactly when a response arrives before the
    request's timer fires, with a code in 200..299 that equals the
    expected code. *)
Theorem checkService_up_iff (service : ServiceSpec.t) (ep : Checker.Endpoint)
    (lag : Checker.Lag) (start finished : Millis) (r : CheckResult.t) :
  Checker.checkService service ep lag start = Js.Settled (Js.Normal r, finished) ->
  (CheckResult.status r = up <->
   exists code latency,
     ep = Checker.Responds code latency /\
     (latency <= Checker.timer (Js.or_number (ServiceSpec.timeout service) 5000))%Z /\
     Checker.validateStatus code = true /\
     code = Checker.expected service).
Proof.
  unfold Checker.checkService, Checker.axios_get.
  set (t := Js.or_number (ServiceSpec.timeout service) 5000).
  destruct ep as [code latency|msg latency| |msg].
  - destruct (t <? 0)%Z; [discriminate|].
    destruct (Z.ltb_spec (Checker.timer t) latency) as [Hlt|Hle].
    + intros [= <- _]. cbn. split; [discriminate|].
      intros (c & l & [= <- <-] & Hl & _). lia.
    + unfold Checker.settle. destruct (Checker.validateStatus code) eqn:Hv;
        intros [= <- _]; cbn.
      * destruct (Z.eqb_spec code (Checker.expected service)) as [He|He].
        -- split; [|reflexivity]. intros _. exists code, latency. auto.
        -- split; [discriminate|].
           intros (c & l & [= <- <-] & _ & _ & Hc). contradiction.
      * split; [discriminate|].
        intros (c & l & [= <- <-] & _ & Hc & _). congruence.
  - destruct (t <? 0)%Z; [discriminate|].
    destruct (Checker.timer t <? latency)%Z; intros [= <- _]; cbn;
      (split; [discriminate|]); intros (c & l & Hep & _); discriminate Hep.
  - destruct (t <? 0)%Z; [discriminate|]. intros [= <- _]. cbn.
    split; [discriminate|]. intros (c & l & Hep & _); discriminate Hep.
  - intros [= <- _]. cbn.
    split; [discriminate|]. intros (c & l & Hep & _); discriminate Hep.
Qed.

Lemma checkService_up_iff_witness :
  exists code latency,
    Checker.Responds 200%Z 40%Z = Checker.Responds code latency /\
    (latency <= Checker.timer (Js.or_number (ServiceSpec.timeout Examples.api) 5000))%Z /\
    Checker.validateStatus code = true /\
    code = Checker.expected Examples.api.
Proof.
  apply (proj1 (checkService_up_iff Examples.api (Checker.Responds 200%Z 40%Z)
                  Examples.prompt 0%Z 40%Z Examples.api_up eq_refl)).
  reflexivity.
Defined.

(** Every result repeats the service's name and URL, is up or down,
    carries an error exactly when it is down, carries the expected code
    when it is up, and has a response time and a time stamp. *)
Theorem checkService_result_shape (service : ServiceSpec.t) (ep : Checker.Endpoint)
    (lag : Checker.Lag) (start finished : Millis) (c : Js.Completion CheckResult.t) :
  Checker.checkService service ep lag start = Js.Settled (c, finished) ->
  exists r,
    c = Js.Normal r /\
    CheckResult.name r = ServiceSpec.name service /\
    CheckResult.url r = ServiceSpec.url service /\
    (CheckResult.status r = up \/ CheckResult.status r = down) /\
    (CheckResult.error r = None <-> CheckResult.status r = up) /\
    (CheckResult.status r = up ->
       CheckResult.statusCode r = Some (Checker.expected service)) /\
    CheckResult.responseTime r <> None /\
    CheckResult.lastChecked r <> None.
Proof.
  unfold Checker.checkService.
  destruct (Checker.axios_get _ ep) as [[response elapsed]|uncaught]; [|discriminate].
  intros [= <- _]. destruct response as [code|error]; cbn [Js.bind Js.try_catch];
    eexists; (split; [reflexivity|]); cbn.
  - destruct (Z.eqb_spec code (Checker.expected service)) as [->|He];
      repeat split; try congruence; try discriminate; auto.
  - repeat split; try discriminate; auto.
Qed.

Lemma checkService_result_shape_witness :
  exists r,
    Js.Normal Examples.api_up = Js.Normal r /\
    CheckResult.name r = ServiceSpec.name Examples.api /\
    CheckResult.url r = ServiceSpec.url Examples.api.
Proof.
  destruct (checkService_result_shape Examples.api (Checker.Responds 200%Z 40%Z)
              Examples.prompt 0%Z 40%Z (Js.Normal Examples.api_up) eq_refl)
    as (r & Hr & Hname & Hurl & _).
  exists r. auto.
Defined.

(** ** History *)




(** ** Check cycle *)

Lemma Promise_all_checks w start services :
  Forall (fun service =>
            (0 <= Js.or_number (ServiceSpec.timeout service) 5000)%Z) services ->
  exists results settled,
    Monitor.Promise_all start
      (map (fun service =>
              Checker.checkService service
                (Monitor.endpoint w (ServiceSpec.url service) start)
                (Monitor.lag w (ServiceSpec.url service) start) start) services)
    = Js.Settled (Js.Normal results, settled) /\
    Forall2 (fun service r =>
               exists finished,
                 Checker.checkService service
                   (Monitor.endpoint w (ServiceSpec.url service) start)
                   (Monitor.lag w (ServiceSpec.url service) start) start
                 = Js.Settled (Js.Normal r, finished)) services results.
Proof.
  induction 1 as [|service rest Hpos _ IH].
  - exists [], start. split; [reflexivity|constructor].
  - destruct IH as (results & settled & Hall & Hres).
    destruct (checkService_returns service
                (Monitor.endpoint w (ServiceSpec.url service) start)
                (Monitor.lag w (ServiceSpec.url service) start) start (or_introl Hpos))
      as (r & finished & Hr & _).
    exists (r :: results), (Z.max finished settled).
    cbn [map Monitor.Promise_all]. rewrite Hr, Hall.
    split; [reflexivity|]. constructor; [eauto|exact Hres].
Qed.

(** What the settled promises of a fan-out hold. *)
Lemma Promise_all_settled w start services results settled :
  Monitor.Promise_all start
    (map (fun service =>
            Checker.checkService service
              (Monitor.endpoint w (ServiceSpec.url service) start)
              (Monitor.lag w (ServiceSpec.url service) start) start) services)
  = Js.Settled (Js.Normal results, settled) ->
  Forall2 (fun service r =>
             CheckResult.name r = ServiceSpec.name service /\
             (CheckResult.status r = up \/ CheckResult.status r = down))
    services results.
Proof.
  revert results settled. induction services as [|service rest IH];
    intros results settled; cbn [map Monitor.Promise_all].
  - intros [= <- _]. constructor.
  - destruct (Checker.checkService service _ _ start) as [[c finished]|uncaught] eqn:Hc.
    + destruct (checkService_result _ _ _ _ _ _ Hc) as (r & -> & Hname & Hstatus).
      destruct (Monitor.Promise_all start _) as [[[others|e] latest]|uncaught];
        try discriminate.
      intros [= <- _]. constructor; [auto|]. eapply IH. reflexivity.
    + destruct (Monitor.Promise_all start _) as [[[others|e] latest]|uncaught'];
        discriminate.
Qed.

Lemma Forall2_names (services : list ServiceSpec.t) (results : list CheckResult.t) :
  Forall2 (fun service r =>
             CheckResult.name r = ServiceSpec.name service /\
             (CheckResult.status r = up \/ CheckResult.status r = down))
    services results ->
  map CheckResult.name results = map ServiceSpec.name services.
Proof.
  induction 1 as [|service r services results [Hname _] _ IH]; [reflexivity|].
  cbn [map]. now rewrite Hname, IH.
Qed.

(** When no stored service has a negative timeout, the fan-out of a
    cycle does not throw: it gives one result per stored service, in
    the order of the list, each the checker's result for that service. *)
Theorem fanOut_results (w : Monitor.World) (start : Millis) (st : Monitor.State) :
  Forall (fun service =>
            (0 <= Js.or_number (ServiceSpec.timeout service) 5000)%Z)
    (Monitor.loadServices st) ->
  exists results settled,
    Monitor.fanOut w start st = (Js.Normal results, settled) /\
    Forall2 (fun service r =>
               exists finished,
                 Checker.checkService service
                   (Monitor.endpoint w (ServiceSpec.url service) start)
                   (Monitor.lag w (ServiceSpec.url service) start) start
                 = Js.Settled (Js.Normal r, finished))
      (Monitor.loadServices st) results /\
    map CheckResult.name results = map ServiceSpec.name (Monitor.loadServices st).
Proof.
  intros Hpos. unfold Monitor.fanOut.
  destruct (Promise_all_checks w start (Monitor.loadServices st) Hpos)
    as (results & settled & Hall & Hres).
  exists results, settled. rewrite Hall. split; [reflexivity|]. split; [exact Hres|].
  apply Forall2_names. eapply Promise_all_settled. exact Hall.
Qed.

Lemma fanOut_results_witness :
  exists results settled,
    Monitor.fanOut Examples.silent 0%Z (Examples.started [Examples.api; Examples.slow])
      = (Js.Normal results, settled) /\
    map CheckResult.name results = ["api"; "slow"].
Proof.
  destruct (fanOut_results Examples.silent 0%Z
              (Examples.started [Examples.api; Examples.slow]))
    as (results & settled & Hf & _ & Hnames).
  { repeat constructor; vm_compute; discriminate. }
  exists results, settled. auto.
Defined.

(** A stored service with a negative timeout stops the cycle: the
    fan-out never settles and nothing is recorded for any service. *)
Example fanOut_negative_timeout :
  exists final settled,
    Monitor.checkAllServices (C := Vault.hex_cipher) Examples.ENCRYPTION_KEY
      Examples.healthy 0%Z (Examples.started [Examples.api; Scenarios.impatient])
    = (Js.Throw Js.RangeError, final, settled) /\
    final = Examples.started [Examples.api; Scenarios.impatient].
Proof. eexists _, _. split; vm_compute; reflexivity. Qed.



Lemma own_or_absent_insert {V} (obj : gmap string V) key v :
  Js.own_or_absent (<[key := v]> obj) key = true.
Proof. unfold Js.own_or_absent. now rewrite get_insert_eq. Qed.

(** Two results for the same service processed one after the other (the
    service's name leading to a history file and being looked up among
    the own properties): the second calls the dispatcher exactly when
    its status differs from the first's, and then once, carrying the
    first's status as the previous status; so a flip from up to down
    between two cycles gives exactly one dispatch, with previous status
    up and status down. *)
Theorem consecutive_results_dispatch `{C : Vault.Aes256Cbc}
    (key : list byte) (w : Monitor.World) (now1 now2 : Millis)
    (r1 r2 : CheckResult.t) (st : Monitor.State) (stem : string) :
  CheckResult.name r1 = CheckResult.name r2 ->
  Fs.historyFile (CheckResult.name r1) = Js.Normal (Fs.HistoryFile stem) ->
  Js.own_or_absent (Monitor.serviceStatuses st) (CheckResult.name r1) = true ->
  Js.own_or_absent (Monitor.serviceHistories st) (CheckResult.name r1) = true ->
  let st1 := snd (Monitor.processResult key w now1 r1 st) in
  let st2 := snd (Monitor.processResult key w now2 r2 st1) in
  Monitor.previousStatus st1 (CheckResult.name r2) = Js.Normal (CheckResult.status r1) /\
  Monitor.dispatched st2 =
    (Monitor.dispatched st1 ++
       if Status_eqb (CheckResult.status r1) (CheckResult.status r2) then []
       else [(r2, CheckResult.status r1)])%list.
Proof.
  intros Hname Hfile Hstatus Hhistory. cbn zeta.
  destruct (processResult_storage key w now1 r1 st stem Hfile Hstatus Hhistory)
    as (_ & Hh & Hs & _). cbn zeta in Hh, Hs.
  set (st1 := snd (Monitor.processResult key w now1 r1 st)) in *.
  assert (Hstatus1 : Js.own_or_absent (Monitor.serviceStatuses st1) (CheckResult.name r2)
                     = true)
    by (rewrite Hs, <- Hname; apply own_or_absent_insert).
  assert (Hhistory1 : Js.own_or_absent (Monitor.serviceHistories st1) (CheckResult.name r2)
                      = true)
    by (rewrite Hh, <- Hname; apply own_or_absent_insert).
  assert (Hfile2 : Fs.historyFile (CheckResult.name r2) = Js.Normal (Fs.HistoryFile stem))
    by (now rewrite <- Hname).
  destruct (processResult_saved key w now2 r2 st1 stem Hfile2 Hstatus1 Hhistory1)
    as (Hprev & _).
  destruct (processResult_dispatched key w now2 r2 st1 stem Hfile2 Hstatus1 Hhistory1)
    as (Hd & _).
  cbn zeta in Hprev, Hd.
  assert (Hlook : Monitor.serviceStatuses st1 !! CheckResult.name r2 = Some r1)
    by (rewrite Hs, <- Hname; apply lookup_insert_eq).
  rewrite Hlook in Hprev, Hd. split; [exact Hprev|exact Hd].
Qed.

Lemma consecutive_results_dispatch_witness :
  Monitor.dispatched
    (snd (Monitor.processResult (C := Vault.hex_cipher) Examples.ENCRYPTION_KEY
            Examples.healthy 30040%Z (Scenarios.B_down 30040%Z)
            (snd (Monitor.processResult (C := Vault.hex_cipher) Examples.ENCRYPTION_KEY
                    Examples.healthy 40%Z (Examples.B_up 40%Z) (Examples.started [])))))
  = [(Examples.B_up 40%Z, unknown); (Scenarios.B_down 30040%Z, up)].
Proof.
  etransitivity.
  - apply (proj2 (consecutive_results_dispatch (C := Vault.hex_cipher)
             Examples.ENCRYPTION_KEY Examples.healthy 40%Z 30040%Z
             (Examples.B_up 40%Z) (Scenarios.B_down 30040%Z) (Examples.started []) "B"
             eq_refl eq_refl eq_refl eq_refl)).
  - vm_compute. reflexivity.
Defined.

(** ** Adding and removing services *)

Lemma filter_keeps_all {A} (f : A -> bool) (l : list A) :
  Nat.eqb (length l) (length (List.filter f l)) = forallb f l.
Proof.
  induction l as [|a l IH]; [reflexivity|]. cbn [List.filter forallb length].
  destruct (f a); cbn [length andb]; [exact IH|].
  apply Nat.eqb_neq. pose proof (filter_length_le f l). lia.
Qed.

Lemma known_forallb name services :
  forallb (fun service => negb (String.eqb (ServiceSpec.name service) name)) services
  = negb (Routes.known name services).
Proof.
  unfold Routes.known. induction services as [|s l IH]; [reflexivity|].
  cbn [forallb existsb]. rewrite IH. now destruct (String.eqb _ name), (existsb _ l).
Qed.

Lemma known_filter name other services :
  Routes.known other
    (List.filter (fun service => negb (String.eqb (ServiceSpec.name service) name)) services)
  = Routes.known other services && negb (String.eqb other name).
Proof.
  unfold Routes.known. induction services as [|s l IH]; [reflexivity|].
  cbn [List.filter existsb].
  destruct (String.eqb_spec (ServiceSpec.name s) name) as [Hs|Hs]; cbn [negb existsb].
  - rewrite IH. destruct (String.eqb_spec (ServiceSpec.name s) other) as [Ho|Ho];
      cbn [orb]; [|reflexivity].
    assert (Heq : String.eqb other name = true) by (apply String.eqb_eq; congruence).
    rewrite Heq. cbn. now rewrite andb_false_r.
  - rewrite IH. destruct (String.eqb_spec (ServiceSpec.name s) other) as [Ho|Ho];
      cbn [orb]; [|reflexivity].
    assert (Hne : String.eqb other name = false) by (apply String.eqb_neq; congruence).
    now rewrite Hne.
Qed.

(** Removing a service. An unknown name is answered 404 and nothing
    changes. A known name is answered 204; when it leads to a file of
    the history directory and is not ["__proto__"], the list afterwards
    holds the other services in their order, the name has no status
    record and no in-memory history, that history file is gone, every
    other status record, in-memory history and history file is as it
    was, the history route answers 404 for the name, and removing it
    again is answered 404. *)
Theorem deleteService_effects (serviceName : string) (st : Monitor.State) :
  (Routes.known serviceName (Monitor.loadServices st) = false ->
   Monitor.deleteService serviceName st = (404%Z, st)) /\
  (Routes.known serviceName (Monitor.loadServices st) = true ->
   forall stem,
     Fs.historyFile serviceName = Js.Normal (Fs.HistoryFile stem) ->
     serviceName <> "__proto__" ->
     exists st',
       Monitor.deleteService serviceName st = (204%Z, st') /\
       Monitor.loadServices st'
         = List.filter
             (fun service => negb (String.eqb (ServiceSpec.name service) serviceName))
             (Monitor.loadServices st) /\
       (forall other,
          Routes.known other (Monitor.loadServices st')
          = Routes.known other (Monitor.loadServices st)
            && negb (String.eqb other serviceName)) /\
       Monitor.serviceStatuses st' !! serviceName = None /\
       Monitor.serviceHistories st' !! serviceName = None /\
       Monitor.historyFiles st' !! stem = None /\
       (forall other, other <> serviceName ->
          Monitor.serviceStatuses st' !! other = Monitor.serviceStatuses st !! other /\
          Monitor.serviceHistories st' !! other = Monitor.serviceHistories st !! other) /\
       (forall other, other <> stem ->
          Monitor.historyFiles st' !! other = Monitor.historyFiles st !! other) /\
       Routes.getHistory serviceName st' = Routes.Failure 404 "Service not found" /\
       Monitor.deleteService serviceName st' = (404%Z, st')).
Proof.
  unfold Monitor.deleteService.
  rewrite filter_keeps_all, known_forallb.
  split; intros Hk; rewrite Hk; cbn [negb]; [reflexivity|].
  intros stem Hfile Hproto.
  unfold Monitor.unlinkHistoryFile. rewrite Hfile.
  eexists. split; [reflexivity|].
  cbn [Monitor.loadServices Monitor.servicesFile read_json Monitor.serviceStatuses
       Monitor.serviceHistories Monitor.historyFiles].
  assert (Hgone : Routes.known serviceName
            (List.filter
               (fun service => negb (String.eqb (ServiceSpec.name service) serviceName))
               (Monitor.loadServices st)) = false).
  { rewrite known_filter, String.eqb_refl. apply andb_false_r. }
  assert (Hdel : forall V (obj : gmap string V),
            Js.delete_property serviceName obj = delete serviceName obj).
  { intros V obj. unfold Js.delete_property.
    apply String.eqb_neq in Hproto. now rewrite Hproto. }
  rewrite !Hdel.
  split; [reflexivity|]. split; [intros other; apply known_filter|].
  split; [apply lookup_delete_eq|]. split; [apply lookup_delete_eq|].
  split; [apply lookup_delete_eq|].
  split; [intros other Hne; rewrite !lookup_delete_ne by congruence; auto|].
  split; [intros other Hne; rewrite lookup_delete_ne by congruence; reflexivity|].
  split.
  - unfold Routes.getHistory. cbn [Monitor.loadServices Monitor.servicesFile read_json].
    now rewrite Hgone.
  - rewrite filter_keeps_all, known_forallb, Hgone. reflexivity.
Qed.

Lemma deleteService_effects_witness :
  exists st',
    Monitor.deleteService "B" Examples.monitoring_B = (204%Z, st') /\
    Monitor.historyFiles st' !! "B" = None /\
    Monitor.deleteService "B" st' = (404%Z, st').
Proof.
  destruct (proj2 (deleteService_effects "B" Examples.monitoring_B) eq_refl "B" eq_refl
              ltac:(discriminate))
    as (st' & Hd & _ & _ & _ & _ & Hfile & _ & _ & _ & Hagain).
  exists st'. auto.
Defined.

(** Removing a service whose name leads out of the history directory
    removes the file it leads to: a service named ["../services"] takes
    the service list with it. *)
Example deleteService_unlinks_services_file :
  exists st',
    Monitor.deleteService "../services"
      (Examples.started
         [Examples.api;
          {| ServiceSpec.name := "../services";
             ServiceSpec.url := "http://x.local/";
             ServiceSpec.timeout := None;
             ServiceSpec.expectedStatus := None |}]) = (204%Z, st') /\
    Monitor.servicesFile st' = Missing /\
    Monitor.loadServices st' = [].
Proof. eexists. split; [vm_compute; reflexivity|]. split; reflexivity. Qed.

Lemma uptime_single entry :
  History.toFixed2 (History.calculateUptime [entry])
  = if Status_eqb (HistoryEntry.status entry) up then "100.00" else "0.00".
Proof.
  unfold History.calculateUptime, History.is_up. cbn [List.filter].
  destruct (Status_eqb (HistoryEntry.status entry) up); vm_compute; reflexivity.
Qed.

(** What the add route does for a new service whose check returns and
    whose name leads to a history file. *)
Lemma addService_added w start newService st stem :
  let name := ServiceSpec.name newService in
  let ep := Monitor.endpoint w (ServiceSpec.url newService) start in
  let lag := Monitor.lag w (ServiceSpec.url newService) start in
  name <> "" -> ServiceSpec.url newService <> "" ->
  Routes.known name (Monitor.loadServices st) = false ->
  ((0 <= Js.or_number (ServiceSpec.timeout newService) 5000)%Z
   \/ exists msg, ep = Checker.Unrequestable msg) ->
  Fs.historyFile name = Js.Normal (Fs.HistoryFile stem) ->
  exists r finished st',
    Checker.checkService newService ep lag start = Js.Settled (Js.Normal r, finished) /\
    CheckResult.name r = name /\
    Routes.addService w start newService st
    = (Routes.Json 201
         {| Monitor.record := r;
            Monitor.uptime :=
              if Status_eqb (CheckResult.status r) up then "100.00" else "0.00" |}, st') /\
    Monitor.servicesFile st' = Content (Monitor.loadServices st ++ [newService])%list /\
    Monitor.serviceStatuses st' = <[name := r]> (Monitor.serviceStatuses st) /\
    Monitor.serviceHistories st'
      = <[name := [Monitor.entry_of r]]> (Monitor.serviceHistories st) /\
    Monitor.historyFiles st'
      = <[stem := History.newerThan (Monitor.ninetyDaysAgo w finished)
                    [Monitor.entry_of r]]> (Monitor.historyFiles st) /\
    Monitor.dispatched st' = Monitor.dispatched st /\
    Monitor.attempts st' = Monitor.attempts st.
Proof.
  cbn zeta. unfold Routes.addService.
  intros Hn Hu Hk Hcheck Hfile. apply truthy_true_iff in Hn, Hu.
  rewrite Hn, Hu, Hk. cbn [negb orb].
  destruct (checkService_returns newService _
              (Monitor.lag w (ServiceSpec.url newService) start) start Hcheck)
    as (r & finished & Hr & Hname).
  rewrite Hr. cbn [Monitor.serviceHistories Monitor.historyFiles].
  rewrite get_insert_eq. cbn [app].
  rewrite (saveServiceHistory_written _ _ _ _ _ Hfile).
  cbn [Monitor.serviceHistories]. rewrite get_insert_eq.
  cbn [History.uptimeOf]. rewrite uptime_single.
  change (HistoryEntry.status (Monitor.entry_of r)) with (CheckResult.status r).
  exists r, finished. eexists. split; [reflexivity|]. split; [exact Hname|].
  split; [reflexivity|].
  cbn [Monitor.servicesFile Monitor.serviceStatuses
       Monitor.serviceHistories Monitor.historyFiles Monitor.dispatched Monitor.attempts].
  rewrite Hname, insert_insert_eq. repeat split.
Qed.



(** Adding a service whose name holds a path separator: the service is
    appended to the list and checked, the save of its history throws,
    and the request gets no answer. *)
Example addService_nested_name :
  exists st',
    Routes.addService Examples.healthy 0%Z Scenarios.nested (Examples.started [])
    = (Routes.Unhandled Js.ENOENT, st') /\
    Monitor.loadServices st' = [Scenarios.nested] /\
    Monitor.serviceStatuses st' !! "a/b" = None.
Proof. eexists. split; [vm_compute; reflexivity|]. split; vm_compute; reflexivity. Qed.

Lemma known_In name services :
  Routes.known name services = true <-> In name (map ServiceSpec.name services).
Proof.
  unfold Routes.known. rewrite existsb_exists, in_map_iff.
  split; intros (s & H1 & H2); exists s.
  - apply String.eqb_eq in H2. auto.
  - split; [exact H2|]. now apply String.eqb_eq.
Qed.

Lemma NoDup_map_filter {A B} (f : A -> B) (p : A -> bool) (l : list A) :
  List.NoDup (map f l) -> List.NoDup (map f (List.filter p l)).
Proof.
  induction l as [|a l IH]; cbn [map List.filter]; [auto|].
  intros Hnd. apply List.NoDup_cons_iff in Hnd as [Hnotin Hnd].
  destruct (p a); cbn [map]; [|auto].
  apply List.NoDup_cons_iff. split; [|auto].
  intros Hin. apply Hnotin. apply in_map_iff in Hin as (x & Hx & Hxin).
  apply filter_In in Hxin as [Hxin _]. apply in_map_iff. eauto.
Qed.

(** Service names stay unique: if no two stored services share a name,
    the same holds after any add request and after any remove request. *)
Theorem service_names_stay_unique (w : Monitor.World) (start : Millis)
    (newService : ServiceSpec.t) (serviceName : string) (st : Monitor.State) :
  List.NoDup (map ServiceSpec.name (Monitor.loadServices st)) ->
  List.NoDup (map ServiceSpec.name
                (Monitor.loadServices (snd (Routes.addService w start newService st)))) /\
  List.NoDup (map ServiceSpec.name
                (Monitor.loadServices (snd (Monitor.deleteService serviceName st)))).
Proof.
  intros Hnd. split.
  - unfold Routes.addService.
    destruct (negb _ || negb _); [exact Hnd|].
    destruct (Routes.known _ _) eqn:Hk; [exact Hnd|].
    assert (Hnew : List.NoDup
              (map ServiceSpec.name (Monitor.loadServices st ++ [newService]))).
    { rewrite map_app. cbn [map].
      apply List.NoDup_rev in Hnd. rewrite <- (rev_involutive (_ ++ _)%list).
      apply List.NoDup_rev. rewrite rev_app_distr. cbn [rev app].
      apply List.NoDup_cons_iff. split; [|exact Hnd].
      rewrite <- in_rev. intros Hin. apply known_In in Hin. congruence. }
    destruct (Checker.checkService _ _ _ _) as [[[result|e] finished]|uncaught];
      [|exact Hnew|exact Hnew].
    destruct (Js.get _ _); [|exact Hnew|exact Hnew|exact Hnew].
    destruct (History.saveServiceHistory _ _ _ _) as [[trimmed|e] files]; [|exact Hnew].
    destruct (History.uptimeOf _); exact Hnew.
  - unfold Monitor.deleteService. destruct (Nat.eqb _ _); [exact Hnd|].
    unfold Monitor.unlinkHistoryFile.
    destruct (Fs.historyFile serviceName) as [[stem|file| |]|e];
      cbn [snd Monitor.loadServices Monitor.servicesFile read_json];
      try (now apply NoDup_map_filter).
    destruct (String.eqb file "services.json"); cbn [read_json];
      [constructor|now apply NoDup_map_filter].
Qed.

Lemma service_names_stay_unique_witness :
  List.NoDup
    (map ServiceSpec.name
       (Monitor.loadServices
          (snd (Routes.addService Examples.healthy 0%Z Examples.slow
                  (Examples.started [Examples.api]))))).
Proof.
  apply (service_names_stay_unique Examples.healthy 0%Z Examples.slow "api"
           (Examples.started [Examples.api])).
  repeat constructor. intros [].
Defined.

(** The check made by the add route does not alert, and it is the
    reference for the next cycle: the first result a cycle processes for
    the added service calls the dispatcher exactly when its status
    differs from the status found when the service was added (for a
    service whose timeout is not negative and whose name leads to a
    file of the history directory). *)
Theorem addService_then_cycle `{C : Vault.Aes256Cbc}
    (key : list byte) (w : Monitor.World) (start now : Millis)
    (newService : ServiceSpec.t) (r2 : CheckResult.t) (st : Monitor.State)
    (stem : string) :
  let ep := Monitor.endpoint w (ServiceSpec.url newService) start in
  let lag := Monitor.lag w (ServiceSpec.url newService) start in
  ServiceSpec.name newService <> "" -> ServiceSpec.url newService <> "" ->
  Routes.known (ServiceSpec.name newService) (Monitor.loadServices st) = false ->
  (0 <= Js.or_number (ServiceSpec.timeout newService) 5000)%Z ->
  Fs.historyFile (ServiceSpec.name newService) = Js.Normal (Fs.HistoryFile stem) ->
  CheckResult.name r2 = ServiceSpec.name newService ->
  exists r finished,
    Checker.checkService newService ep lag start = Js.Settled (Js.Normal r, finished) /\
    let added := snd (Routes.addService w start newService st) in
    Monitor.dispatched added = Monitor.dispatched st /\
    Monitor.dispatched (snd (Monitor.processResult key w now r2 added)) =
      (Monitor.dispatched st ++
         if Status_eqb (CheckResult.status r) (CheckResult.status r2) then []
         else [(r2, CheckResult.status r)])%list.
Proof.
  cbn zeta. intros Hn Hu Hk Hpos Hfile Hname.
  destruct (addService_added w start newService st stem Hn Hu Hk (or_introl Hpos) Hfile)
    as (r & finished & st' & Hr & _ & Hadd & _ & Hs & Hh & _ & Hd & _).
  exists r, finished. split; [exact Hr|]. cbn zeta in *. rewrite Hadd. cbn [snd].
  split; [exact Hd|].
  assert (Hstatus : Js.own_or_absent (Monitor.serviceStatuses st') (CheckResult.name r2)
                    = true)
    by (rewrite Hs, Hname; apply own_or_absent_insert).
  assert (Hhistory : Js.own_or_absent (Monitor.serviceHistories st') (CheckResult.name r2)
                     = true)
    by (rewrite Hh, Hname; apply own_or_absent_insert).
  assert (Hfile2 : Fs.historyFile (CheckResult.name r2) = Js.Normal (Fs.HistoryFile stem))
    by (now rewrite Hname).
  destruct (processResult_dispatched key w now r2 st' stem Hfile2 Hstatus Hhistory)
    as (Hd2 & _).
  cbn zeta in Hd2. rewrite Hd2, Hs, Hname, lookup_insert_eq, Hd. reflexivity.
Qed.

Lemma addService_then_cycle_witness :
  Monitor.dispatched
    (snd (Monitor.processResult (C := Vault.hex_cipher) Examples.ENCRYPTION_KEY
            Examples.healthy 30040%Z (Scenarios.B_down 30040%Z)
            (snd (Routes.addService Examples.healthy 0%Z Examples.B
                    (Examples.started [])))))
  = [(Scenarios.B_down 30040%Z, up)].
Proof.
  destruct (addService_then_cycle (C := Vault.hex_cipher) Examples.ENCRYPTION_KEY
              Examples.healthy 0%Z 30040%Z Examples.B (Scenarios.B_down 30040%Z)
              (Examples.started []) "B" ltac:(discriminate) ltac:(discriminate)
              eq_refl ltac:(vm_compute; discriminate) eq_refl eq_refl)
    as (r & finished & Hr & _ & Hd).
  injection Hr as <- _. exact Hd.
Defined.


(** ** Scheduler *)

Lemma dispatch_throws_unbound_transporter clients net n status previous log :
  previous <> status ->
  Notifications.Email.enabled (Notifications.email n) = true ->
  Dispatcher.transporter clients = Dispatcher.Unbound ->
  Dispatcher.dispatch clients net n status previous log
  = (Js.Throw (Js.ReferenceError "transporter"), log).
Proof.
  intros Hne Hmail Hun. apply Status_eqb_neq in Hne.
  unfold Dispatcher.dispatch, Dispatcher.sendEmailNotification, Dispatcher.with_client,
    Dispatcher.and_then, Dispatcher.throw.
  now rewrite Hne, Hmail, Hun.
Qed.

(** The histories loaded at the start hold an entry of their own for
    every stored service. *)
Lemma loaded_histories_own (files : gmap string (list HistoryEntry.t))
    (services : list ServiceSpec.t) (histories : gmap string (list HistoryEntry.t))
    (name : string) :
  Routes.known name services = true ->
  exists history,
    fold_left
      (fun histories service =>
         <[ServiceSpec.name service :=
             match files !! ServiceSpec.name service with
             | Some history => history
             | None => []
             end]> histories)
      services histories !! name = Some history.
Proof.
  unfold Routes.known. revert histories.
  induction services as [|s l IH]; intros histories; [discriminate|].
  cbn [fold_left existsb]. destruct (existsb _ l) eqn:Hl.
  - intros _. now apply IH.
  - rewrite orb_false_r. intros Hs. apply String.eqb_eq in Hs. subst name.
    eexists. clear IH.
    assert (Hkeep : forall l' (h : gmap string (list HistoryEntry.t)),
              existsb (fun service => String.eqb (ServiceSpec.name service)
                                        (ServiceSpec.name s)) l' = false ->
              fold_left
                (fun histories service =>
                   <[ServiceSpec.name service :=
                       match files !! ServiceSpec.name service with
                       | Some history => history
                       | None => []
                       end]> histories)
                l' h !! ServiceSpec.name s = h !! ServiceSpec.name s).
    { induction l' as [|s' l' IH']; intros h; [reflexivity|].
      cbn [fold_left existsb]. intros H. apply orb_false_iff in H as [Hs' Hl'].
      rewrite (IH' _ Hl'). apply lookup_insert_ne. now apply String.eqb_neq. }
    rewrite (Hkeep l _ Hl). apply lookup_insert_eq.
Qed.

(** Start of the process with no status recorded and the mail client
    not assigned: if mail is enabled but its host, user or password is
    missing, and there is at least one service, [initialize] does not
    complete and the timer is never set. The first cycle, if it is
    reached and its probes settle and its first history save succeeds,
    calls the dispatcher for the first result, and the mail channel
    throws on the unassigned client. *)
Theorem initialize_fails_on_incomplete_mail `{C : Vault.Aes256Cbc}
    (key : list byte) (w : Monitor.World) (start : Millis) (st : Monitor.State) :
  let n := Dispatcher.loadNotifications key (Monitor.notificationsFile st) in
  let smtp := Notifications.Email.smtp (Notifications.email n) in
  let mail_complete :=
    Js.truthy (Notifications.Smtp.host smtp)
    && Js.truthy (Notifications.Auth.user (Notifications.Smtp.auth smtp))
    && Js.truthy (Notifications.Auth.pass (Notifications.Smtp.auth smtp)) in
  Monitor.serviceStatuses st = ∅ ->
  Dispatcher.transporter (Monitor.clients st) = Dispatcher.Unbound ->
  Monitor.loadServices st <> [] ->
  Notifications.Email.enabled (Notifications.email n) = true ->
  mail_complete = false ->
  Scheduler.initialize key w start st = None.
Proof.
  cbn zeta. intros Hempty Hunbound Hservices Henabled Hincomplete.
  unfold Scheduler.initialize.
  pose proof (initializeNotifications_unfold key (Monitor.notificationsFile st)
                (Monitor.clients st)) as Hinit.
  cbn zeta in Hinit. rewrite Hinit. clear Hinit.
  rewrite Henabled. cbn [andb]. rewrite Hincomplete.
  destruct (_ && negb _); [reflexivity|].
  match goal with
  | |- context [Monitor.checkAllServices key w start ?s] => set (st0 := s)
  end.
  assert (Hload : Monitor.loadServices st0 = Monitor.loadServices st) by reflexivity.
  unfold Monitor.checkAllServices, Monitor.fanOut. rewrite Hload.
  destruct (Monitor.Promise_all start _) as [[[results|e] settled]|uncaught] eqn:Hall;
    [|reflexivity|reflexivity].
  apply Promise_all_settled in Hall.
  inversion Hall as [Hnone|service r services results' [Hname Hupdown] _ Hsome Hresults];
    [symmetry in Hnone; contradiction|].
  cbn [Monitor.updatePhase].
  assert (Hthrows : exists e st1, Monitor.processResult key w settled r st0 = (Js.Throw e, st1)).
  { unfold Monitor.processResult, Monitor.previousStatus, Monitor.historyToPush.
    assert (Hprev : exists previous,
              match Js.get (Monitor.serviceStatuses st0) (CheckResult.name r) with
              | Js.Own previousEntry => Js.Normal (CheckResult.status previousEntry)
              | Js.Inherited _ => Js.Normal undefined
              | Js.Absent => Js.Normal unknown
              | Js.Replaced => Js.Throw Js.OutsideModel
              end = Js.Normal previous /\ previous <> CheckResult.status r).
    { subst st0. cbn [Monitor.serviceStatuses]. rewrite Hempty, get_empty.
      destruct (Js.Object_prototype _); eexists; (split; [reflexivity|]);
        destruct Hupdown as [-> | ->]; discriminate. }
    destruct Hprev as (previous & -> & Hchanged).
    destruct (loaded_histories_own (Monitor.historyFiles st)
                (Monitor.loadServices st) (Monitor.serviceHistories st)
                (CheckResult.name r))
      as (history & Hhistory).
    { rewrite <- Hsome, Hname. unfold Routes.known. cbn [existsb].
      now rewrite String.eqb_refl. }
    assert (Hget : Js.get (Monitor.serviceHistories st0) (CheckResult.name r)
                   = Js.Own history).
    { apply get_own. subst st0. cbn [Monitor.serviceHistories]. exact Hhistory. }
    rewrite Hget.
    destruct (History.saveServiceHistory _ _ _ _) as [[trimmed|e] files];
      [|eexists _, _; reflexivity].
    apply Status_eqb_neq in Hchanged. rewrite Hchanged. cbn [negb].
    unfold Monitor.notify, Dispatcher.sendNotifications.
    cbn [Monitor.notificationsFile Monitor.clients Monitor.attempts].
    rewrite dispatch_throws_unbound_transporter.
    - eexists _, _. reflexivity.
    - now apply Status_eqb_neq.
    - subst st0. exact Henabled.
    - subst st0. exact Hunbound. }
  destruct Hthrows as (e & st1 & ->). reflexivity.
Qed.

Lemma initialize_fails_on_incomplete_mail_witness :
  Scheduler.initialize (C := Vault.hex_cipher) Examples.ENCRYPTION_KEY Examples.healthy
    0%Z {| Monitor.servicesFile := Content [Examples.api];
           Monitor.notificationsFile := Content Examples.mail_incomplete;
           Monitor.historyFiles := ∅;
           Monitor.serviceStatuses := ∅;
           Monitor.serviceHistories := ∅;
           Monitor.clients := Examples.no_clients;
           Monitor.dispatched := [];
           Monitor.attempts := [] |} = None.
Proof.
  apply (initialize_fails_on_incomplete_mail (C := Vault.hex_cipher)
           Examples.ENCRYPTION_KEY Examples.healthy 0%Z);
    try reflexivity; discriminate.
Defined.
